(** * A shallow embedding of the library record service

    The service of [app/library_rest_api.py] keeps books, readers and
    loans in a relational database and answers HTTP requests through
    one handler per endpoint.  Each handler receives a fresh
    SQLAlchemy session, builds queries against it, registers writes in
    the session's unit of work and commits them; exceptions leave the
    handler as HTTP responses.

    The embedding follows that structure: rows are records, tables are
    lists of rows in scan order, a session is a piece of state threaded
    through a small exception monad, and every handler is written with
    the statements of its Python body in the same order. *)

From Stdlib Require Import ZArith.
From stdpp Require Import base tactics decidable option numbers list strings sorting.

Local Open Scope Z_scope.

(** ** The schema *)

(** Modelled from the spec: [models.py] (the declarative classes [Book],
    [Reader], [Loan]) is not among the sources; the columns are those of
    section 3 of the specification, with the two nullable columns that
    [database_migrations.py] adds. *)
Module Book.
Record t := mk {
  id : Z;
  title : string;
  author : string;
  publisher : string;
  topic : string;
  year_published : option Z
}.
End Book.

Module Reader.
Record t := mk {
  id : Z;
  name : string;
  address : string;
  phone : string;
  email : option string
}.
End Reader.

Module Loan.
Record t := mk {
  id : Z;
  book_id : Z;
  reader_id : Z
}.
End Loan.

(** The request body of [POST /books/] and the response model of
    [GET /books/{book_id}] (class [BookCreate]). *)
Module BookCreate.
Record t := mk {
  title : string;
  author : string;
  publisher : string;
  topic : string
}.

(** What [response_model=BookCreate] keeps of a row. *)
Definition of_row (b : Book.t) : t :=
  mk (Book.title b) (Book.author b) (Book.publisher b) (Book.topic b).
End BookCreate.

(** The database: three tables in scan order (a row is appended when it
    is inserted and keeps its place when it is updated) and the
    sequences that hand out the surrogate keys. *)
Record Database := mkDatabase {
  books : list Book.t;
  readers : list Reader.t;
  loans : list Loan.t;
  books_id_seq : Z;
  readers_id_seq : Z;
  loans_id_seq : Z
}.

Global Instance Book_eq_dec : EqDecision Book.t.
Proof. solve_decision. Defined.

(** ** Exceptions and responses *)

Inductive Exn :=
| HTTPException (status_code : Z) (detail : Detail)
| OperationalError
| DataError
| IntegrityError (constraint : string)
| InvalidRequestError
with Detail :=
| Text (s : string)
| Str (e : Exn).

Inductive Outcome (A : Type) :=
| Return (a : A)
| Raise (e : Exn).
Arguments Return {A} a.
Arguments Raise {A} e.

(** The status line the framework sends: 200 for a returned value, the
    code of an [HTTPException], and 500 for any other exception that
    escapes the handler. *)
Definition status {A} (o : Outcome A) : Z :=
  match o with
  | Return _ => 200
  | Raise (HTTPException code _) => code
  | Raise _ => 500
  end.

(** ** The session *)

(** Writes registered with the session and not yet flushed. *)
Inductive Pending :=
| Insert_Book (title author publisher topic : string)
| Update_Book_publisher (pk : Z) (publisher : string)
| Delete_Book (pk : Z)
| Delete_Loan (pk : Z)
| Delete_Reader (pk : Z).

(** The state a handler runs in: the database the session is bound to,
    the session's unit of work, and what the connection will do to the
    coming round trips ([true]: the statement is lost and the driver
    raises; an exhausted list means no further failure). *)
Record World := mkWorld {
  database : Database;
  pending : list Pending;
  faults : list bool
}.

(** A computation of a handler: it may change the state it runs in and
    ends with a value or with an exception. *)
Definition M (A : Type) : Type := World → World * Outcome A.

Global Instance M_ret : MRet M := λ A a w, (w, Return a).

Global Instance M_bind : MBind M := λ A B f m w,
  match m w with
  | (w', Return a) => f a w'
  | (w', Raise e) => (w', Raise e)
  end.

(** [raise e] *)
Definition raise {A} (e : Exn) : M A := λ w, (w, Raise e).

(** [try: body / except Exception as e: handler e]. Every exception of
    the model derives from [Exception], [HTTPException] included. *)
Definition try_except {A} (body : M A) (handler : Exn → M A) : M A := λ w,
  match body w with
  | (w', Return a) => (w', Return a)
  | (w', Raise e) => handler e w'
  end.

(** One round trip to the database server. *)
Definition execute : M unit := λ w,
  match faults w with
  | [] => (w, Return ())
  | lost :: rest =>
      let w' := mkWorld (database w) (pending w) rest in
      if lost : bool then (w', Raise OperationalError) else (w', Return ())
  end.

(** *** Queries *)

Record Query (A : Type) := mkQuery {
  q_rows : Database → list A;
  q_offset : option Z;
  q_limit : option Z
}.
Arguments mkQuery {A} _ _ _.
Arguments q_rows {A} _ _.
Arguments q_offset {A} _.
Arguments q_limit {A} _.

Definition query_Book : Query Book.t := mkQuery books None None.
Definition query_Reader : Query Reader.t := mkQuery readers None None.
Definition query_Loan : Query Loan.t := mkQuery loans None None.

Definition q_filter {A} (P : A → Prop) `{∀ x, Decision (P x)}
    (q : Query A) : Query A :=
  mkQuery (λ d, filter P (q_rows q d)) (q_offset q) (q_limit q).

Definition q_order_by {A} (R : relation A) `{∀ x y, Decision (R x y)}
    (q : Query A) : Query A :=
  mkQuery (λ d, merge_sort R (q_rows q d)) (q_offset q) (q_limit q).

(** [q.join(B, A.fk == B.key)]: the inner join keeps one copy of the
    left row for every right row whose key the left row refers to (at
    most one when the key is the primary key of the right table, so
    that the loaded entities are distinct). *)
Definition q_join {A B} (right : Database → list B) (fk : A → Z) (key : B → Z)
    (q : Query A) : Query A :=
  mkQuery (λ d, a ← q_rows q d; (λ _, a) <$> filter (λ b, fk a = key b) (right d))
          (q_offset q) (q_limit q).

Definition q_offset_by {A} (n : Z) (q : Query A) : Query A :=
  mkQuery (q_rows q) (Some n) (q_limit q).

Definition q_limit_by {A} (n : Z) (q : Query A) : Query A :=
  mkQuery (q_rows q) (q_offset q) (Some n).

Definition negative (n : option Z) : bool :=
  match n with
  | Some k => bool_decide (k < 0)
  | None => false
  end.

(** A count the server cannot read as a [bigint]. *)
Definition beyond_bigint (n : option Z) : bool :=
  match n with
  | Some k => bool_decide (2 ^ 63 ≤ k)
  | None => false
  end.

Definition apply_offset {A} (n : option Z) (rows : list A) : list A :=
  match n with
  | Some k => drop (Z.to_nat k) rows
  | None => rows
  end.

Definition apply_limit {A} (n : option Z) (rows : list A) : list A :=
  match n with
  | Some k => take (Z.to_nat k) rows
  | None => rows
  end.

(** [OFFSET] and [LIMIT]; the server rejects a negative count and a
    count of [2 ^ 63] or more. *)
Definition page {A} (off lim : option Z) (rows : list A) : Outcome (list A) :=
  if negative off || negative lim then Raise DataError
  else if beyond_bigint off || beyond_bigint lim then Raise DataError
  else Return (apply_limit lim (apply_offset off rows)).

(** The answer of the server to a statement that reached it. *)
Definition answer {A} (f : Database → Outcome A) : M A := λ w,
  (w, f (database w)).

(** [q.all()] *)
Definition q_all {A} (q : Query A) : M (list A) :=
  execute;;
  answer (λ d, page (q_offset q) (q_limit q) (q_rows q d)).

(** [q.first()]: the query with [LIMIT 1], and its row or [None]. *)
Definition q_first {A} (q : Query A) : M (option A) :=
  rows ← q_all (q_limit_by 1 q);
  mret (head rows).

(** *** The unit of work *)

(** [db.add(obj)], and an attribute assignment on a loaded object: the
    statement waits in the unit of work for the flush. *)
Definition add (obj : Pending) : M unit := λ w,
  (mkWorld (database w) (pending w ++ [obj]) (faults w), Return ()).

(** [db.delete(obj)]: the [DELETE], keyed by the primary key of the
    object, waits for the flush as well. *)
Definition delete (obj : Pending) : M unit := add obj.

(** [UPDATE books SET publisher = p] on one row. *)
Definition set_publisher (p : string) (b : Book.t) : Book.t :=
  Book.mk (Book.id b) (Book.title b) (Book.author b) p (Book.topic b)
          (Book.year_published b).

(** [UPDATE books SET ... WHERE id = pk], with [g] the new content of a
    row.  The session sends the statement only for an object whose
    attributes have changed, and the server writes the new version of a
    row behind the rows the table holds: a scan then meets the rows that
    were not rewritten in their old order and the rewritten ones after
    them (the table is taken as never vacuumed). *)
Definition update_rows (pk : Z) (g : Book.t → Book.t) (bs : list Book.t)
    : list Book.t :=
  filter (λ b, ¬ (Book.id b = pk ∧ g b ≠ b)) bs ++
  (g <$> filter (λ b, Book.id b = pk ∧ g b ≠ b) bs).

(** One statement of the flush.  An [INSERT] draws its key from the
    sequence whether or not the row is accepted.

    Modelled from the spec: the primary key and the unique title of
    [books] are declared in [models.py], which is not among the sources;
    section 3 of the specification states them. *)
Definition flush_one (op : Pending) (d : Database) : Database * Outcome (list Z) :=
  match op with
  | Insert_Book t a p tp =>
      let pk := books_id_seq d in
      let d1 := mkDatabase (books d) (readers d) (loans d)
                  (pk + 1) (readers_id_seq d) (loans_id_seq d) in
      if bool_decide (pk ∈ Book.id <$> books d) then
        (d1, Raise (IntegrityError "books_pkey"))
      else if bool_decide (t ∈ Book.title <$> books d) then
        (d1, Raise (IntegrityError "books_title_key"))
      else
        (mkDatabase (books d ++ [Book.mk pk t a p tp None]) (readers d) (loans d)
           (pk + 1) (readers_id_seq d) (loans_id_seq d),
         Return [pk])
  | Update_Book_publisher pk p =>
      (mkDatabase (update_rows pk (set_publisher p) (books d))
         (readers d) (loans d)
         (books_id_seq d) (readers_id_seq d) (loans_id_seq d),
       Return [])
  | Delete_Book pk =>
      (mkDatabase (filter (λ b, Book.id b ≠ pk) (books d)) (readers d) (loans d)
         (books_id_seq d) (readers_id_seq d) (loans_id_seq d),
       Return [])
  | Delete_Loan pk =>
      (mkDatabase (books d) (readers d) (filter (λ l, Loan.id l ≠ pk) (loans d))
         (books_id_seq d) (readers_id_seq d) (loans_id_seq d),
       Return [])
  | Delete_Reader pk =>
      (mkDatabase (books d) (filter (λ r, Reader.id r ≠ pk) (readers d)) (loans d)
         (books_id_seq d) (readers_id_seq d) (loans_id_seq d),
       Return [])
  end.

(** The statements of the unit of work in the order they were
    registered; the result lists the keys handed to the inserted rows. *)
Fixpoint flush (ops : list Pending) (d : Database) : Database * Outcome (list Z) :=
  match ops with
  | [] => (d, Return [])
  | op :: ops' =>
      match flush_one op d with
      | (d1, Return ks) =>
          match flush ops' d1 with
          | (d2, Return ks') => (d2, Return (ks ++ ks'))
          | (d2, Raise e) => (d2, Raise e)
          end
      | (d1, Raise e) => (d1, Raise e)
      end
  end.

(** What an aborted transaction leaves behind: the tables as they were,
    the sequences as far as they were drawn. *)
Definition aborted (before after : Database) : Database :=
  mkDatabase (books before) (readers before) (loans before)
    (books_id_seq after) (readers_id_seq after) (loans_id_seq after).

(** [db.commit()]: one round trip in which the unit of work is flushed
    and the transaction committed; a statement the tables refuse aborts
    the transaction. *)
Definition flush_and_commit : M (list Z) := λ w,
  match flush (pending w) (database w) with
  | (d', Return keys) => (mkWorld d' [] (faults w), Return keys)
  | (d', Raise e) =>
      (mkWorld (aborted (database w) d') (pending w) (faults w), Raise e)
  end.

Definition commit : M (list Z) :=
  execute;;
  flush_and_commit.

(** [db.rollback()]: what is not committed is dropped. *)
Definition rollback : M unit := λ w,
  (mkWorld (database w) [] (faults w), Return ()).

(** [db.refresh(new_book)]: the row is read back under the key the
    flush gave to the object, the first of [keys]. *)
Definition refresh_Book (keys : list Z) : M Book.t :=
  match keys with
  | pk :: _ =>
      row ← q_first (q_filter (λ b, Book.id b = pk) query_Book);
      match row with
      | Some b => mret b
      | None => raise InvalidRequestError
      end
  | [] => raise InvalidRequestError
  end.

(** [get_db]: a request runs with a session of its own, and whatever the
    session still holds when the handler leaves is discarded. *)
Definition run {A} (handler : M A) (fs : list bool) (d : Database)
    : Database * Outcome A :=
  let '(w, o) := handler (mkWorld d [] fs) in (database w, o).

(** ** The handlers *)

(** [for x in xs: body x] *)
Fixpoint for_each {A} (xs : list A) (body : A → M unit) : M unit :=
  match xs with
  | [] => mret ()
  | x :: xs' => body x;; for_each xs' body
  end.

(** [POST /books/] *)
Definition create_book (book : BookCreate.t) : M (string * Book.t) :=
  try_except
    (existing_book ←
       q_first (q_filter (λ b, Book.title b = BookCreate.title book) query_Book);
     match existing_book with
     | Some _ =>
         raise (HTTPException 400 (Text "Book with this title already exists"))
     | None =>
         let new_book :=
           Insert_Book (BookCreate.title book) (BookCreate.author book)
                       (BookCreate.publisher book) (BookCreate.topic book) in
         add new_book;;
         keys ← commit;
         new_book ← refresh_Book keys;
         mret ("Book added successfully", new_book)
     end)
    (λ e, rollback;; raise (HTTPException 500 (Str e))).

(** [getattr(Book, order_by)] for the columns the handler admits. *)
Definition getattr_Book (name : string) : option (Book.t → string) :=
  if bool_decide (name = "title") then Some Book.title
  else if bool_decide (name = "author") then Some Book.author
  else if bool_decide (name = "publisher") then Some Book.publisher
  else if bool_decide (name = "topic") then Some Book.topic
  else None.

Section Collation.
(** The order the database compares strings in. *)
Context (collate : relation string) `{!∀ x y, Decision (collate x y)}.

Definition asc (col : Book.t → string) : relation Book.t :=
  λ a b, collate (col a) (col b).

Definition desc (col : Book.t → string) : relation Book.t :=
  λ a b, collate (col b) (col a).

Global Instance asc_dec col a b : Decision (asc col a b).
Proof. unfold asc. apply _. Defined.

Global Instance desc_dec col a b : Decision (desc col a b).
Proof. unfold desc. apply _. Defined.

(** [GET /books/] *)
Definition read_books (skip limit : Z) (order_by : string) (ascending : bool)
    : M (list Book.t) :=
  let query := query_Book in
  let query :=
    if bool_decide (order_by ∈ ["title"; "author"; "publisher"; "topic"]) then
      match getattr_Book order_by with
      | Some col =>
          if ascending then q_order_by (asc col) query
          else q_order_by (desc col) query
      | None => query
      end
    else query in
  q_all (q_limit_by limit (q_offset_by skip query)).
End Collation.

(** [GET /books/{book_id}] *)
Definition read_book (book_id : Z) : M Book.t :=
  book ← q_first (q_filter (λ b, Book.id b = book_id) query_Book);
  match book with
  | None => raise (HTTPException 404 (Text "Book not found"))
  | Some b => mret b
  end.

(** [DELETE /books/{book_id}] *)
Definition delete_book (book_id : Z) : M string :=
  try_except
    (book ← q_first (q_filter (λ b, Book.id b = book_id) query_Book);
     match book with
     | None => raise (HTTPException 404 (Text "Book not found"))
     | Some b =>
         delete (Delete_Book (Book.id b));;
         commit;;
         mret "Book deleted successfully"
     end)
    (λ e, rollback;; raise (HTTPException 500 (Str e))).

(** [DELETE /readers/{reader_id}] *)
Definition delete_reader (reader_id : Z) : M string :=
  try_except
    (reader ← q_first (q_filter (λ r, Reader.id r = reader_id) query_Reader);
     match reader with
     | None => raise (HTTPException 404 (Text "Reader not found"))
     | Some r =>
         loans ← q_all (q_filter (λ l, Loan.reader_id l = reader_id) query_Loan);
         for_each loans (λ loan, delete (Delete_Loan (Loan.id loan)));;
         delete (Delete_Reader (Reader.id r));;
         commit;;
         mret "Reader deleted successfully and loans removed"
     end)
    (λ e, rollback;; raise (HTTPException 500 (Str e))).

(** [if param:] on an optional string parameter: [None] and the empty
    string are both false. *)
Definition if_given {A} (param : option string) (f : string → A → A) (x : A) : A :=
  match param with
  | Some s => if bool_decide (s = "") then x else f s x
  | None => x
  end.

(** [GET /books/search/] *)
Definition search_books (author topic : option string) (skip limit : Z)
    : M (list Book.t) :=
  let query := query_Book in
  let query := if_given author (λ a, q_filter (λ b, Book.author b = a)) query in
  let query := if_given topic (λ t, q_filter (λ b, Book.topic b = t)) query in
  books ← q_all (q_limit_by limit (q_offset_by skip query));
  match books with
  | [] => raise (HTTPException 404 (Text "No books found with given criteria"))
  | _ => mret books
  end.

(** [GET /loans/details/] *)
Definition get_loan_details (skip limit : Z) : M (list Loan.t) :=
  loans ←
    q_all (q_limit_by limit (q_offset_by skip
      (q_join readers Loan.reader_id Reader.id
        (q_join books Loan.book_id Book.id query_Loan))));
  match loans with
  | [] => raise (HTTPException 404 (Text "No loans found"))
  | _ => mret loans
  end.

(** [PUT /books/update_publisher/] *)
Definition update_books_publisher (book_id : Z) (new_publisher : string)
    : M string :=
  try_except
    (book_to_update ← q_first (q_filter (λ b, Book.id b = book_id) query_Book);
     match book_to_update with
     | None =>
         raise (HTTPException 404 (Text "Book not found with the given ID"))
     | Some b =>
         (* book_to_update.publisher = new_publisher *)
         add (Update_Book_publisher (Book.id b) new_publisher);;
         commit;;
         mret "Book updated successfully"
     end)
    (λ e, rollback;; raise (HTTPException 500 (Str e))).

(** [query(Book.topic, func.count(Book.id)).group_by(Book.topic)]: one
    row per distinct key with the number of rows that carry it.  SQL
    leaves the order of the groups open; here each key stands where its
    last row stands. *)
Definition count_of (k : string) (keys : list string) : Z :=
  Z.of_nat (length (filter (λ k', k' = k) keys)).

Definition group_count (keys : list string) : list (string * Z) :=
  (λ k, (k, count_of k keys)) <$> remove_dups keys.

Definition query_topic_count : Query (string * Z) :=
  mkQuery (λ d, group_count (Book.topic <$> books d)) None None.

(** [GET /books/count_by_topic/] *)
Definition count_books_by_topic (skip limit : Z) : M (list (string * Z)) :=
  count_by_topic ← q_all (q_limit_by limit (q_offset_by skip query_topic_count));
  match count_by_topic with
  | [] => raise (HTTPException 404 (Text "No books found"))
  | _ => mret count_by_topic
  end.

(** The same handler with the order of the groups left to the server:
    [arrange] is the order in which its plan hands the groups over,
    which SQL does not fix; [count_books_by_topic] is the handler with
    the groups in the order [group_count] lists them. *)
Definition query_topic_count_in (arrange : list (string * Z) → list (string * Z))
    : Query (string * Z) :=
  mkQuery (λ d, arrange (group_count (Book.topic <$> books d))) None None.

Definition count_books_by_topic_in (arrange : list (string * Z) → list (string * Z))
    (skip limit : Z) : M (list (string * Z)) :=
  count_by_topic ←
    q_all (q_limit_by limit (q_offset_by skip (query_topic_count_in arrange)));
  match count_by_topic with
  | [] => raise (HTTPException 404 (Text "No books found"))
  | _ => mret count_by_topic
  end.

(** ** Vocabulary of the statements *)

(** Whether the connection fails at the coming round trip. *)
Definition lost (fs : list bool) : bool := default false (head fs).

(** A database with one book and nothing else. *)
Definition db_one_book : Database :=
  mkDatabase [Book.mk 1 "Dup" "A1" "P1" "X" None] [] [] 2 1 1.

(** The row a successful [POST /books/] adds, and the database after it. *)
Definition inserted (d : Database) (book : BookCreate.t) : Book.t :=
  Book.mk (books_id_seq d) (BookCreate.title book) (BookCreate.author book)
          (BookCreate.publisher book) (BookCreate.topic book) None.

Definition with_inserted (d : Database) (book : BookCreate.t) : Database :=
  mkDatabase (books d ++ [inserted d book]) (readers d) (loans d)
    (books_id_seq d + 1) (readers_id_seq d) (loans_id_seq d).

(** C2 as the specification words it: whenever [POST /books/] fails,
    the rows of [books] are those from before the call. *)
Definition create_book_reverts (d : Database) (book : BookCreate.t)
    (fs : list bool) : Prop :=
  ∀ d' e, run (create_book book) fs d = (d', Raise e) → books d' = books d.

(** The [loans] table after the rows keyed [pks] are deleted one by one,
    and the database after a successful [DELETE /readers/{reader_id}]. *)
Definition delete_loans (pks : list Z) (ls : list Loan.t) : list Loan.t :=
  foldl (λ ls pk, filter (λ l, Loan.id l ≠ pk) ls) ls pks.

Definition without_reader (d : Database) (reader_id : Z) : Database :=
  mkDatabase (books d)
    (filter (λ r, Reader.id r ≠ reader_id) (readers d))
    (delete_loans
       (Loan.id <$> filter (λ l, Loan.reader_id l = reader_id) (loans d))
       (loans d))
    (books_id_seq d) (readers_id_seq d) (loans_id_seq d).

(** One book, two readers, and three loans of which two are reader 1's. *)
Definition db_loans : Database :=
  mkDatabase
    [Book.mk 1 "T1" "A1" "P1" "X" None]
    [Reader.mk 1 "R1" "Street 1" "111" None; Reader.mk 2 "R2" "Street 2" "222" None]
    [Loan.mk 1 1 1; Loan.mk 2 1 2; Loan.mk 3 1 1]
    2 3 4.

(** The filter a parameter of [GET /books/search/] amounts to: none when
    the parameter is left out or empty, equality otherwise. *)
Definition applied (param : option string) (v : string) : Prop :=
  match param with
  | Some s => s = "" ∨ v = s
  | None => True
  end.

Global Instance applied_dec param v : Decision (applied param v).
Proof. destruct param; simpl; apply _. Defined.

(** The filter as the specification words it: every parameter that is
    supplied is an equality filter. *)
Definition supplied (param : option string) (v : string) : Prop :=
  match param with
  | Some s => v = s
  | None => True
  end.

Global Instance supplied_dec param v : Decision (supplied param v).
Proof. destruct param; simpl; apply _. Defined.

(** The ending shared by the three listing handlers that refuse an empty
    result: [if not rows: raise HTTPException(404, detail)], else the rows. *)
Definition not_found_or {A} (detail : string) (rows : list A) : Outcome (list A) :=
  match rows with
  | [] => Raise (HTTPException 404 (Text detail))
  | _ => Return rows
  end.

(** C3 as the specification words it: the response is the page of the
    rows that equal every supplied parameter, and it is the 404 exactly
    when there is no such row on the page. *)
Definition search_books_as_specified (d : Database) (author topic : option string)
    (skip limit : Z) : Prop :=
  let subset :=
    filter (λ b, supplied topic (Book.topic b) ∧ supplied author (Book.author b))
           (books d) in
  let rows := take (Z.to_nat limit) (drop (Z.to_nat skip) subset) in
  let response := (run (search_books author topic skip limit) [] d).2 in
  (status response = 404 ↔ rows = []) ∧
  (∀ found, response = Return found → found = rows).

(** The sum of the counts of a list of (topic, count) pairs. *)
Definition sum_counts (groups : list (string * Z)) : Z :=
  foldr Z.add 0 (groups.*2).

(** C4, its NotFound clause as the specification words it: the 404 is
    sent only when the [books] table has no row at all. *)
Definition not_found_only_without_books (d : Database) (skip limit : Z) : Prop :=
  status (run (count_books_by_topic skip limit) [] d).2 = 404 → books d = [].

(** Three books on two topics. *)
Definition db_topics : Database :=
  mkDatabase
    [Book.mk 1 "T1" "A1" "P1" "X" None;
     Book.mk 2 "T2" "A2" "P2" "Y" None;
     Book.mk 3 "T3" "A1" "P3" "X" None]
    [] [] 4 1 1.

(** The order of the ids, which is the order of insertion: the
    sequence hands the keys out increasing. *)
Definition by_id : relation Book.t := λ a b, Book.id a ≤ Book.id b.

Global Instance by_id_dec a b : Decision (by_id a b).
Proof. unfold by_id. apply _. Defined.




(** ** The handlers of readers, loans and whole books *)

(** The request bodies of [POST /readers/] and [POST /loans/]. *)
Module ReaderCreate.
Record t := mk {
  name : string;
  address : string;
  phone : string
}.
End ReaderCreate.

Module LoanCreate.
Record t := mk {
  reader_id : Z;
  book_id : Z
}.
End LoanCreate.

(** [GET /readers/] *)
Definition read_readers (skip limit : Z) : M (list Reader.t) :=
  q_all (q_limit_by limit (q_offset_by skip query_Reader)).

(** The writes of [issue_book], [create_reader] and [update_book], and
    the session that holds them in its unit of work. *)
Inductive Write :=
| Insert_Reader (name address phone : string)
| Insert_Loan (book_id reader_id : Z)
| Update_Book (pk : Z) (title author publisher topic : string).

Record Session := mkSession {
  s_database : Database;
  s_pending : list Write;
  s_faults : list bool
}.

Definition Tx (A : Type) : Type := Session → Session * Outcome A.

Global Instance Tx_ret : MRet Tx := λ A a s, (s, Return a).

Global Instance Tx_bind : MBind Tx := λ A B f m s,
  match m s with
  | (s', Return a) => f a s'
  | (s', Raise e) => (s', Raise e)
  end.

Definition tx_raise {A} (e : Exn) : Tx A := λ s, (s, Raise e).

Definition tx_try_except {A} (body : Tx A) (handler : Exn → Tx A) : Tx A := λ s,
  match body s with
  | (s', Return a) => (s', Return a)
  | (s', Raise e) => handler e s'
  end.

(** A statement that only reads (a query, a refresh, the round trip of
    the commit) runs as it does in [M]; the unit of work stays. *)
Definition reading {A} (m : M A) : Tx A := λ s,
  let '(w, o) := m (mkWorld (s_database s) [] (s_faults s)) in
  (mkSession (database w) (s_pending s) (faults w), o).

Definition tx_add (obj : Write) : Tx unit := λ s,
  (mkSession (s_database s) (s_pending s ++ [obj]) (s_faults s), Return ()).

(** [UPDATE books SET title, author, publisher, topic] on one row. *)
Definition set_fields (t a p tp : string) (b : Book.t) : Book.t :=
  Book.mk (Book.id b) t a p tp (Book.year_published b).

(** One statement of the flush, as in [flush_one].

    Modelled from the spec: the primary keys of [readers] and [loans]
    and the unique title of [books] are declared in [models.py], which
    is not among the sources; section 3 of the specification states
    them.  An [UPDATE] is refused when it gives a row the title of a row
    with another key. *)
Definition flush_write (op : Write) (d : Database) : Database * Outcome (list Z) :=
  match op with
  | Insert_Reader n a p =>
      let pk := readers_id_seq d in
      let d1 := mkDatabase (books d) (readers d) (loans d)
                  (books_id_seq d) (pk + 1) (loans_id_seq d) in
      if bool_decide (pk ∈ Reader.id <$> readers d) then
        (d1, Raise (IntegrityError "readers_pkey"))
      else
        (mkDatabase (books d) (readers d ++ [Reader.mk pk n a p None]) (loans d)
           (books_id_seq d) (pk + 1) (loans_id_seq d),
         Return [pk])
  | Insert_Loan b r =>
      let pk := loans_id_seq d in
      let d1 := mkDatabase (books d) (readers d) (loans d)
                  (books_id_seq d) (readers_id_seq d) (pk + 1) in
      if bool_decide (pk ∈ Loan.id <$> loans d) then
        (d1, Raise (IntegrityError "loans_pkey"))
      else
        (mkDatabase (books d) (readers d) (loans d ++ [Loan.mk pk b r])
           (books_id_seq d) (readers_id_seq d) (pk + 1),
         Return [pk])
  | Update_Book pk t a p tp =>
      if bool_decide (pk ∈ Book.id <$> books d ∧
                      t ∈ Book.title <$> filter (λ b, Book.id b ≠ pk) (books d)) then
        (d, Raise (IntegrityError "books_title_key"))
      else
        (mkDatabase (update_rows pk (set_fields t a p tp) (books d))
           (readers d) (loans d)
           (books_id_seq d) (readers_id_seq d) (loans_id_seq d),
         Return [])
  end.

Fixpoint flush_writes (ops : list Write) (d : Database) : Database * Outcome (list Z) :=
  match ops with
  | [] => (d, Return [])
  | op :: ops' =>
      match flush_write op d with
      | (d1, Return ks) =>
          match flush_writes ops' d1 with
          | (d2, Return ks') => (d2, Return (ks ++ ks'))
          | (d2, Raise e) => (d2, Raise e)
          end
      | (d1, Raise e) => (d1, Raise e)
      end
  end.

Definition tx_flush_and_commit : Tx (list Z) := λ s,
  match flush_writes (s_pending s) (s_database s) with
  | (d', Return keys) => (mkSession d' [] (s_faults s), Return keys)
  | (d', Raise e) =>
      (mkSession (aborted (s_database s) d') (s_pending s) (s_faults s), Raise e)
  end.

Definition tx_commit : Tx (list Z) :=
  reading execute;;
  tx_flush_and_commit.

Definition tx_rollback : Tx unit := λ s,
  (mkSession (s_database s) [] (s_faults s), Return ()).

(** [db.refresh(new_reader)] and [db.refresh(new_loan)]. *)
Definition refresh_Reader (keys : list Z) : M Reader.t :=
  match keys with
  | pk :: _ =>
      row ← q_first (q_filter (λ r, Reader.id r = pk) query_Reader);
      match row with
      | Some r => mret r
      | None => raise InvalidRequestError
      end
  | [] => raise InvalidRequestError
  end.

Definition refresh_Loan (keys : list Z) : M Loan.t :=
  match keys with
  | pk :: _ =>
      row ← q_first (q_filter (λ l, Loan.id l = pk) query_Loan);
      match row with
      | Some l => mret l
      | None => raise InvalidRequestError
      end
  | [] => raise InvalidRequestError
  end.

Definition tx_run {A} (handler : Tx A) (fs : list bool) (d : Database)
    : Database * Outcome A :=
  let '(s, o) := handler (mkSession d [] fs) in (s_database s, o).

(** [POST /loans/] *)
Definition issue_book (loan : LoanCreate.t) : Tx (string * Loan.t) :=
  tx_try_except
    (book ←
       reading (q_first (q_filter (λ b, Book.id b = LoanCreate.book_id loan)
                                  query_Book));
     match book with
     | None => tx_raise (HTTPException 404 (Text "Book not available"))
     | Some book =>
         reader ←
           reading (q_first (q_filter (λ r, Reader.id r = LoanCreate.reader_id loan)
                                      query_Reader));
         match reader with
         | None => tx_raise (HTTPException 404 (Text "Reader not found"))
         | Some reader =>
             tx_add (Insert_Loan (Book.id book) (Reader.id reader));;
             keys ← tx_commit;
             new_loan ← reading (refresh_Loan keys);
             mret ("Book issued successfully", new_loan)
         end
     end)
    (λ e, tx_rollback;; tx_raise (HTTPException 500 (Str e))).

(** [POST /readers/] *)
Definition create_reader (reader : ReaderCreate.t) : Tx (string * Reader.t) :=
  tx_try_except
    (tx_add (Insert_Reader (ReaderCreate.name reader) (ReaderCreate.address reader)
                           (ReaderCreate.phone reader));;
     keys ← tx_commit;
     new_reader ← reading (refresh_Reader keys);
     mret ("Reader added successfully", new_reader))
    (λ e, tx_rollback;; tx_raise (HTTPException 500 (Str e))).

(** [PUT /books/{book_id}] *)
Definition update_book (book_id : Z) (book : BookCreate.t) : Tx Book.t :=
  tx_try_except
    (existing_book ←
       reading (q_first (q_filter (λ b, Book.id b = book_id) query_Book));
     match existing_book with
     | None => tx_raise (HTTPException 404 (Text "Book not found"))
     | Some b =>
         (* existing_book.title = book.title, and so on for the other three *)
         tx_add (Update_Book (Book.id b) (BookCreate.title book)
                   (BookCreate.author book) (BookCreate.publisher book)
                   (BookCreate.topic book));;
         tx_commit;;
         reading (refresh_Book [Book.id b])
     end)
    (λ e, tx_rollback;; tx_raise (HTTPException 500 (Str e))).

(** ** Vocabulary of the further statements *)

(** The database after a successful [DELETE /books/{book_id}]. *)
Definition without_book (d : Database) (book_id : Z) : Database :=
  mkDatabase (filter (λ b, Book.id b ≠ book_id) (books d)) (readers d) (loans d)
    (books_id_seq d) (readers_id_seq d) (loans_id_seq d).

(** The database after a successful [PUT /books/update_publisher/]. *)
Definition with_publisher (d : Database) (book_id : Z) (p : string) : Database :=
  mkDatabase (update_rows book_id (set_publisher p) (books d))
    (readers d) (loans d)
    (books_id_seq d) (readers_id_seq d) (loans_id_seq d).

(** The database after a successful [PUT /books/{book_id}]. *)
Definition with_fields (d : Database) (book_id : Z) (book : BookCreate.t) : Database :=
  mkDatabase
    (update_rows book_id
       (set_fields (BookCreate.title book) (BookCreate.author book)
                   (BookCreate.publisher book) (BookCreate.topic book))
       (books d))
    (readers d) (loans d)
    (books_id_seq d) (readers_id_seq d) (loans_id_seq d).

(** The rows of [books] with those of one id rewritten by [g], as a
    statement about the content of the table that leaves its order
    open. *)
Definition rewritten (book_id : Z) (g : Book.t → Book.t) (bs : list Book.t)
    : list Book.t :=
  (λ b, if bool_decide (Book.id b = book_id) then g b else b) <$> bs.

(** A string the driver binds to a statement: it refuses one that holds
    the character NUL.  The session of this development has no such
    refusal; the statements that promise a success name this
    condition. *)
Fixpoint holds_nul (s : string) : bool :=
  match s with
  | EmptyString => false
  | String c s' => bool_decide (c = Ascii.zero) || holds_nul s'
  end.

Definition bindable (s : string) : Prop := holds_nul s = false.

Definition bindable_book (book : BookCreate.t) : Prop :=
  bindable (BookCreate.title book) ∧ bindable (BookCreate.author book) ∧
  bindable (BookCreate.publisher book) ∧ bindable (BookCreate.topic book).

Definition bindable_reader (reader : ReaderCreate.t) : Prop :=
  bindable (ReaderCreate.name reader) ∧ bindable (ReaderCreate.address reader) ∧
  bindable (ReaderCreate.phone reader).

(** A parameter of [GET /books/search/] that is bound when it is applied. *)
Definition bindable_param (param : option string) : Prop :=
  match param with
  | Some s => bindable s
  | None => True
  end.

(** A count of rows the server accepts for [OFFSET] and [LIMIT]. *)
Definition in_range (n : Z) : Prop := 0 ≤ n < 2 ^ 63.

Global Instance in_range_dec n : Decision (in_range n).
Proof. unfold in_range. apply _. Defined.

(** The loan a successful [POST /loans/] adds, and the database after it. *)
Definition issued (d : Database) (loan : LoanCreate.t) : Loan.t :=
  Loan.mk (loans_id_seq d) (LoanCreate.book_id loan) (LoanCreate.reader_id loan).

Definition with_issued (d : Database) (loan : LoanCreate.t) : Database :=
  mkDatabase (books d) (readers d) (loans d ++ [issued d loan])
    (books_id_seq d) (readers_id_seq d) (loans_id_seq d + 1).

(** The reader a successful [POST /readers/] adds, and the database
    after it. *)
Definition registered (d : Database) (reader : ReaderCreate.t) : Reader.t :=
  Reader.mk (readers_id_seq d) (ReaderCreate.name reader)
            (ReaderCreate.address reader) (ReaderCreate.phone reader) None.

Definition with_registered (d : Database) (reader : ReaderCreate.t) : Database :=
  mkDatabase (books d) (readers d ++ [registered d reader]) (loans d)
    (books_id_seq d) (readers_id_seq d + 1) (loans_id_seq d).

(** The loans that have both their book and their reader. *)
Definition with_both (d : Database) (l : Loan.t) : Prop :=
  Loan.book_id l ∈ Book.id <$> books d ∧ Loan.reader_id l ∈ Reader.id <$> readers d.

Global Instance with_both_dec d l : Decision (with_both d l).
Proof. unfold with_both. apply _. Defined.

(** What the primary keys and the unique title keep true of the tables,
    and sequences that are ahead of every key handed out. *)
Record consistent (d : Database) : Prop := mk_consistent {
  book_keys : NoDup (Book.id <$> books d);
  book_titles : NoDup (Book.title <$> books d);
  reader_keys : NoDup (Reader.id <$> readers d);
  loan_keys : NoDup (Loan.id <$> loans d);
  books_seq_ahead : Forall (λ k, k < books_id_seq d) (Book.id <$> books d);
  readers_seq_ahead : Forall (λ k, k < readers_id_seq d) (Reader.id <$> readers d);
  loans_seq_ahead : Forall (λ k, k < loans_id_seq d) (Loan.id <$> loans d)
}.

(** One book, one reader; the second loan names a book that is not there. *)
Definition db_orphan : Database :=
  mkDatabase
    [Book.mk 1 "T1" "A1" "P1" "X" None]
    [Reader.mk 1 "R1" "Street 1" "111" None]
    [Loan.mk 1 1 1; Loan.mk 2 9 1; Loan.mk 3 1 1]
    2 2 4.

(** ** The migrations of [database_migrations.py] *)

(** The part of a schema the migration operations act on: the tables,
    the columns with the table they belong to (in the order they were
    added), and the indexes. *)
Inductive ColumnType :=
| sa_Integer
| sa_String (length : Z).

Record Column := mkColumn {
  col_name : string;
  col_type : ColumnType;
  nullable : bool
}.

Record Index := mkIndex {
  ix_name : string;
  ix_table : string;
  ix_columns : list string
}.

Record Schema := mkSchema {
  tables : list string;
  columns : list (string * Column);
  indexes : list Index
}.

Definition column_keys (cs : list (string * Column)) : list (string * string) :=
  (λ tc, (tc.1, col_name tc.2)) <$> cs.

Definition has_column (s : Schema) (table name : string) : Prop :=
  (table, name) ∈ column_keys (columns s).

Global Instance has_column_dec s table name : Decision (has_column s table name).
Proof. unfold has_column. apply _. Defined.

(** The operations of [alembic.op] the file uses.  Each is a statement
    the database refuses ([None]) when what it names is missing or
    already there; dropping a column drops the indexes over it. *)
Module op.
Definition add_column (table : string) (c : Column) (s : Schema) : option Schema :=
  if bool_decide (table ∈ tables s ∧ ¬ has_column s table (col_name c)) then
    Some (mkSchema (tables s) (columns s ++ [(table, c)]) (indexes s))
  else None.

Definition drop_column (table name : string) (s : Schema) : option Schema :=
  if bool_decide (has_column s table name) then
    Some (mkSchema (tables s)
            (filter (λ tc, ¬ (tc.1 = table ∧ col_name tc.2 = name)) (columns s))
            (filter (λ i, ¬ (ix_table i = table ∧ name ∈ ix_columns i)) (indexes s)))
  else None.

Definition create_index (name table : string) (cols : list string) (s : Schema)
    : option Schema :=
  if bool_decide ((name ∉ ix_name <$> indexes s) ∧ (name ∉ tables s) ∧
                  Forall (has_column s table) cols) then
    Some (mkSchema (tables s) (columns s) (indexes s ++ [mkIndex name table cols]))
  else None.

Definition drop_index (name table_name : string) (s : Schema) : option Schema :=
  if bool_decide (name ∈ ix_name <$> indexes s) then
    Some (mkSchema (tables s) (columns s)
            (filter (λ i, ix_name i ≠ name) (indexes s)))
  else None.
End op.

(** The file holds two revision scripts one after the other, each with
    its [upgrade] and [downgrade]; they are kept apart here under their
    revision ids. *)
Module rev_001_add_columns.
Definition upgrade (s : Schema) : option Schema :=
  s ← op.add_column "books" (mkColumn "year_published" sa_Integer true) s;
  op.add_column "readers" (mkColumn "email" (sa_String 255) true) s.

Definition downgrade (s : Schema) : option Schema :=
  s ← op.drop_column "books" "year_published" s;
  op.drop_column "readers" "email" s.
End rev_001_add_columns.

Module rev_002_add_indexes.
Definition upgrade (s : Schema) : option Schema :=
  s ← op.create_index "ix_books_author" "books" ["author"] s;
  op.create_index "ix_readers_email" "readers" ["email"] s.

Definition downgrade (s : Schema) : option Schema :=
  s ← op.drop_index "ix_books_author" "books" s;
  op.drop_index "ix_readers_email" "readers" s.
End rev_002_add_indexes.

(** Every index is over columns its table has. *)
Definition indexes_over_columns (s : Schema) : Prop :=
  ∀ i c, i ∈ indexes s → c ∈ ix_columns i → has_column s (ix_table i) c.

(** The three tables with the columns of the handlers, before any
    migration. *)
Definition schema_0 : Schema :=
  mkSchema ["books"; "readers"; "loans"]
    [("books", mkColumn "id" sa_Integer false);
     ("books", mkColumn "title" (sa_String 255) false);
     ("books", mkColumn "author" (sa_String 255) false);
     ("books", mkColumn "publisher" (sa_String 255) false);
     ("books", mkColumn "topic" (sa_String 255) false);
     ("readers", mkColumn "id" sa_Integer false);
     ("readers", mkColumn "name" (sa_String 255) false);
     ("readers", mkColumn "address" (sa_String 255) false);
     ("readers", mkColumn "phone" (sa_String 255) false);
     ("loans", mkColumn "id" sa_Integer false);
     ("loans", mkColumn "book_id" sa_Integer false);
     ("loans", mkColumn "reader_id" sa_Integer false)]
    [].

(** ** Equations of the session operations *)

Lemma bind_run {A B} (m : M A) (f : A → M B) w :
  (m ≫= f) w =
  match m w with
  | (w', Return a) => f a w'
  | (w', Raise e) => (w', Raise e)
  end.
Proof. reflexivity. Qed.

Lemma execute_eq d p fs :
  execute (mkWorld d p fs) =
  (mkWorld d p (tail fs), if lost fs then Raise OperationalError else Return ()).
Proof. by destruct fs as [|[] fs]. Qed.

Lemma q_all_eq {A} (q : Query A) d p fs :
  q_all q (mkWorld d p fs) =
  (mkWorld d p (tail fs),
   if lost fs then Raise OperationalError
   else page (q_offset q) (q_limit q) (q_rows q d)).
Proof.
  unfold q_all. rewrite bind_run, execute_eq. by destruct (lost fs).
Qed.

Lemma head_take_1 {A} (l : list A) : head (take 1 l) = head l.
Proof. by destruct l. Qed.

Lemma q_first_eq {A} (q : Query A) d p fs :
  q_offset q = None →
  q_first q (mkWorld d p fs) =
  (mkWorld d p (tail fs),
   if lost fs then Raise OperationalError else Return (head (q_rows q d))).
Proof.
  intros Hoff. unfold q_first. rewrite bind_run, q_all_eq.
  destruct (lost fs); [done|].
  unfold page. simpl. rewrite Hoff. simpl.
  by rewrite head_take_1.
Qed.

Lemma commit_eq d p fs :
  commit (mkWorld d p fs) =
  if lost fs then (mkWorld d p (tail fs), Raise OperationalError)
  else flush_and_commit (mkWorld d p (tail fs)).
Proof.
  unfold commit. rewrite bind_run, execute_eq. by destruct (lost fs).
Qed.

(** The first row a filter lets through. *)
Lemma head_filter_None {A} (P : A → Prop) `{∀ x, Decision (P x)} (l : list A) :
  head (filter P l) = None ↔ ∀ x, x ∈ l → ¬ P x.
Proof.
  rewrite head_None. split.
  - intros Hnil x Hx HP.
    assert (x ∈ filter P l) as Hin by (by apply list_elem_of_filter).
    rewrite Hnil in Hin. by apply not_elem_of_nil in Hin.
  - intros Hno. destruct (filter P l) as [|x l'] eqn:E; [done|].
    assert (x ∈ filter P l) as Hin by (rewrite E; left).
    apply list_elem_of_filter in Hin as [HP Hx]. by destruct (Hno x).
Qed.

Lemma head_filter_Some {A} (P : A → Prop) `{∀ x, Decision (P x)} (l : list A) x :
  head (filter P l) = Some x → P x ∧ x ∈ l.
Proof.
  intros Hhd. apply head_Some_elem_of in Hhd.
  by apply list_elem_of_filter in Hhd.
Qed.

Lemma head_filter_key_None {A} (key : A → Z) (k : Z) (l : list A) :
  k ∉ key <$> l → head (filter (λ x, key x = k) l) = None.
Proof.
  intros Hk. apply head_filter_None. intros x Hx <-.
  apply Hk. by apply list_elem_of_fmap_2.
Qed.

(** ** Handlers that look a row up before they write *)

(** C1. When a Book with the submitted title is already stored, the
    handler of [POST /books/] raises its 400 inside the [try] block, the
    handler's own [except Exception] catches it, and the response that
    leaves the handler carries status 500, with the 400 only inside the
    detail; the database is as before.  This holds whatever the
    connection does. *)
Theorem create_book_duplicate_title d book fs :
  BookCreate.title book ∈ Book.title <$> books d →
  (run (create_book book) fs d).1 = d ∧
  status (run (create_book book) fs d).2 = 500 ∧
  (lost fs = false →
   (run (create_book book) fs d).2 =
   Raise (HTTPException 500
            (Str (HTTPException 400 (Text "Book with this title already exists"))))).
Proof.
  intros Hdup.
  unfold run, create_book, try_except.
  rewrite bind_run, q_first_eq by done.
  destruct (lost fs); [done|]. simpl.
  destruct (head _) as [b|] eqn:Hhd; [done|].
  pose proof (proj1 (head_filter_None _ _) Hhd) as Hno.
  apply list_elem_of_fmap in Hdup as (b & Hb & Hin).
  by destruct (Hno b Hin).
Qed.

Lemma create_book_duplicate_title_witness :
  (run (create_book (BookCreate.mk "Dup" "A2" "P2" "Y")) [] db_one_book).1
    = db_one_book ∧
  status (run (create_book (BookCreate.mk "Dup" "A2" "P2" "Y")) [] db_one_book).2
    = 500 ∧
  (lost [] = false →
   (run (create_book (BookCreate.mk "Dup" "A2" "P2" "Y")) [] db_one_book).2 =
   Raise (HTTPException 500
            (Str (HTTPException 400 (Text "Book with this title already exists"))))).
Proof.
  apply (create_book_duplicate_title db_one_book
           (BookCreate.mk "Dup" "A2" "P2" "Y") []).
  vm_compute. left.
Defined.

(** C6. For a book id that no row carries, the handler of
    [DELETE /books/{book_id}] raises its 404 inside the [try] block and
    its own [except Exception] turns it into a 500 whose detail quotes
    the 404; the database is left as it was. *)
Theorem delete_book_absent d book_id fs :
  book_id ∉ Book.id <$> books d →
  (run (delete_book book_id) fs d).1 = d ∧
  status (run (delete_book book_id) fs d).2 = 500 ∧
  (lost fs = false →
   (run (delete_book book_id) fs d).2 =
   Raise (HTTPException 500 (Str (HTTPException 404 (Text "Book not found"))))).
Proof.
  intros Habsent.
  unfold run, delete_book, try_except.
  rewrite bind_run, q_first_eq by done.
  destruct (lost fs); [done|]. simpl.
  by rewrite head_filter_key_None.
Qed.

Lemma delete_book_absent_witness :
  (run (delete_book 7) [] db_one_book).1 = db_one_book ∧
  status (run (delete_book 7) [] db_one_book).2 = 500 ∧
  (lost [] = false →
   (run (delete_book 7) [] db_one_book).2 =
   Raise (HTTPException 500 (Str (HTTPException 404 (Text "Book not found"))))).
Proof.
  apply (delete_book_absent db_one_book 7 []).
  apply (bool_decide_eq_true_1 (_ ∉ _)). vm_compute. reflexivity.
Defined.

(** C9, the absent id. [PUT /books/update_publisher/] for an id that no
    row carries raises its 404 inside the [try] block, and the handler's
    [except Exception] answers 500 instead; nothing is written. *)
Theorem update_books_publisher_absent d book_id new_publisher fs :
  book_id ∉ Book.id <$> books d →
  (run (update_books_publisher book_id new_publisher) fs d).1 = d ∧
  status (run (update_books_publisher book_id new_publisher) fs d).2 = 500 ∧
  (lost fs = false →
   (run (update_books_publisher book_id new_publisher) fs d).2 =
   Raise (HTTPException 500
            (Str (HTTPException 404 (Text "Book not found with the given ID"))))).
Proof.
  intros Habsent.
  unfold run, update_books_publisher, try_except.
  rewrite bind_run, q_first_eq by done.
  destruct (lost fs); [done|]. simpl.
  by rewrite head_filter_key_None.
Qed.

Lemma update_books_publisher_absent_witness :
  (run (update_books_publisher 7 "P9") [] db_one_book).1 = db_one_book ∧
  status (run (update_books_publisher 7 "P9") [] db_one_book).2 = 500 ∧
  (lost [] = false →
   (run (update_books_publisher 7 "P9") [] db_one_book).2 =
   Raise (HTTPException 500
            (Str (HTTPException 404 (Text "Book not found with the given ID"))))).
Proof.
  apply (update_books_publisher_absent db_one_book 7 "P9" []).
  apply (bool_decide_eq_true_1 (_ ∉ _)). vm_compute. reflexivity.
Defined.

(** The present id: the row or rows keyed [book_id] get the new
    publisher and nothing else in the database changes. *)
Lemma update_books_publisher_present d book_id new_publisher :
  book_id ∈ Book.id <$> books d →
  run (update_books_publisher book_id new_publisher) [] d =
  (with_publisher d book_id new_publisher, Return "Book updated successfully").
Proof.
  intros Hin.
  unfold run, update_books_publisher, try_except.
  rewrite bind_run, q_first_eq by done. simpl.
  destruct (head _) as [b|] eqn:Hhd.
  - apply head_filter_Some in Hhd as [-> _]. reflexivity.
  - pose proof (proj1 (head_filter_None _ _) Hhd) as Hno.
    apply list_elem_of_fmap in Hin as (b & -> & Hb). by destruct (Hno b Hb).
Qed.

Lemma set_publisher_frame p b :
  Book.publisher (set_publisher p b) = p ∧
  Book.id (set_publisher p b) = Book.id b ∧
  Book.title (set_publisher p b) = Book.title b ∧
  Book.author (set_publisher p b) = Book.author b ∧
  Book.topic (set_publisher p b) = Book.topic b ∧
  Book.year_published (set_publisher p b) = Book.year_published b.
Proof. done. Qed.

(** ** Creating a book *)

Lemma head_filter_inserted d book :
  books_id_seq d ∉ Book.id <$> books d →
  head (filter (λ b, Book.id b = books_id_seq d) (books d ++ [inserted d book]))
  = Some (inserted d book).
Proof.
  intros Hfresh. rewrite filter_app.
  assert (filter (λ b, Book.id b = books_id_seq d) (books d) = []) as ->.
  { apply head_None. by apply head_filter_key_None. }
  simpl. rewrite filter_cons_True by done. done.
Qed.

(** Every way [POST /books/] can end, by what the connection does to
    its three round trips (the title lookup, the commit, the refresh). *)
Lemma create_book_run d book fs :
  run (create_book book) fs d =
  if lost fs then (d, Raise (HTTPException 500 (Str OperationalError)))
  else if bool_decide (BookCreate.title book ∈ Book.title <$> books d) then
    (d, Raise (HTTPException 500
                 (Str (HTTPException 400 (Text "Book with this title already exists")))))
  else if lost (tail fs) then (d, Raise (HTTPException 500 (Str OperationalError)))
  else if bool_decide (books_id_seq d ∈ Book.id <$> books d) then
    (aborted d (with_inserted d book),
     Raise (HTTPException 500 (Str (IntegrityError "books_pkey"))))
  else if lost (tail (tail fs)) then
    (with_inserted d book, Raise (HTTPException 500 (Str OperationalError)))
  else (with_inserted d book, Return ("Book added successfully", inserted d book)).
Proof.
  unfold run, create_book, try_except.
  rewrite bind_run, q_first_eq by done.
  destruct (lost fs); [done|]. simpl.
  case_bool_decide as Hdup.
  - destruct (head _) as [b|] eqn:Hhd; [done|].
    pose proof (proj1 (head_filter_None _ _) Hhd) as Hno.
    apply list_elem_of_fmap in Hdup as (b & Hb & Hin). by destruct (Hno b Hin).
  - destruct (head _) as [b|] eqn:Hhd.
    { apply head_filter_Some in Hhd as [Hb Hin]. destruct Hdup.
      rewrite <- Hb. by apply list_elem_of_fmap_2. }
    rewrite bind_run. simpl. rewrite bind_run, commit_eq.
    destruct (lost (tail fs)); [done|].
    unfold flush_and_commit. simpl.
    case_bool_decide as Hpk; [done|].
    rewrite bool_decide_eq_false_2 by done. simpl.
    rewrite bind_run. unfold refresh_Book.
    rewrite bind_run, q_first_eq by done.
    destruct (lost (tail (tail fs))); [done|]. simpl.
    fold (inserted d book). by rewrite head_filter_inserted.
Qed.

Lemma of_row_inserted d book : BookCreate.of_row (inserted d book) = book.
Proof. by destruct book. Qed.

Lemma lost_third fs : lost (tail (tail fs)) = true → fs !! 2%nat = Some true.
Proof. destruct fs as [|? [|? [|[] ?]]]; done. Qed.

(** C2, counterexample.  The title is new, the commit goes through, and
    the connection is lost at [db.refresh(new_book)]: the handler
    answers 500, its [rollback] finds nothing left to undo, and the row
    stays. *)
Lemma create_book_refresh_lost_keeps_row :
  ¬ create_book_reverts db_one_book (BookCreate.mk "T2" "A2" "P2" "Y")
      [false; false; true].
Proof.
  intros Hrev.
  specialize (Hrev _ _ eq_refl). vm_compute in Hrev. discriminate Hrev.
Qed.

(** C2, amended.  When [POST /books/] fails and the failure is not a
    connection lost at the refresh (the third round trip, after the
    commit), the rows of [books] are those from before the call: this
    covers the duplicate title, the connection lost at the lookup or at
    the commit, and a key the table rejects. *)
Theorem create_book_failure_keeps_rows d book fs d' e :
  run (create_book book) fs d = (d', Raise e) →
  fs !! 2%nat ≠ Some true →
  books d' = books d.
Proof.
  intros Hrun Hthird. rewrite create_book_run in Hrun.
  destruct (lost (tail (tail fs))) eqn:Hlost.
  { by apply lost_third in Hlost. }
  repeat case_match; by simplify_eq.
Qed.

Lemma create_book_failure_keeps_rows_witness :
  books (run (create_book (BookCreate.mk "T2" "A2" "P2" "Y"))
             [false; true] db_one_book).1
  = books db_one_book.
Proof.
  eapply (create_book_failure_keeps_rows db_one_book
            (BookCreate.mk "T2" "A2" "P2" "Y") [false; true]).
  - vm_compute. reflexivity.
  - vm_compute. discriminate.
Defined.

(** C8. In a database with no Book titled as submitted, a successful
    [POST /books/] followed by [GET /books/{book_id}] with the key the
    new row was given returns that row, whose title, author, publisher
    and topic are the submitted ones; and the creation does succeed when
    the connection holds, the sequence offers a key no row has and the
    four submitted strings are ones the driver binds. *)
Theorem create_book_then_read_book d book :
  BookCreate.title book ∉ Book.title <$> books d →
  (books_id_seq d ∉ Book.id <$> books d → bindable_book book →
   run (create_book book) [] d =
   (with_inserted d book, Return ("Book added successfully", inserted d book))) ∧
  (∀ fs d' msg b,
     run (create_book book) fs d = (d', Return (msg, b)) →
     BookCreate.of_row b = book ∧
     run (read_book (Book.id b)) [] d' = (d', Return b)).
Proof.
  intros Hnew. split.
  - intros Hfresh _. rewrite create_book_run. simpl.
    by rewrite !bool_decide_eq_false_2.
  - intros fs d' msg b Hrun. rewrite create_book_run in Hrun.
    repeat case_match; simplify_eq.
    split; [apply of_row_inserted|].
    unfold run, read_book. rewrite bind_run, q_first_eq by done. simpl.
    rewrite head_filter_inserted; [done|].
    by eapply bool_decide_eq_false_1.
Qed.

Lemma create_book_then_read_book_witness :
  run (create_book (BookCreate.mk "T2" "A2" "P2" "Y")) [] db_one_book =
  (with_inserted db_one_book (BookCreate.mk "T2" "A2" "P2" "Y"),
   Return ("Book added successfully",
           inserted db_one_book (BookCreate.mk "T2" "A2" "P2" "Y"))) ∧
  BookCreate.of_row (inserted db_one_book (BookCreate.mk "T2" "A2" "P2" "Y"))
  = BookCreate.mk "T2" "A2" "P2" "Y" ∧
  run (read_book 2) [] (with_inserted db_one_book (BookCreate.mk "T2" "A2" "P2" "Y"))
  = (with_inserted db_one_book (BookCreate.mk "T2" "A2" "P2" "Y"),
     Return (Book.mk 2 "T2" "A2" "P2" "Y" None)).
Proof.
  assert (BookCreate.title (BookCreate.mk "T2" "A2" "P2" "Y")
            ∉ Book.title <$> books db_one_book) as Hnew.
  { apply (bool_decide_eq_true_1 (_ ∉ _)). vm_compute. reflexivity. }
  destruct (create_book_then_read_book db_one_book
              (BookCreate.mk "T2" "A2" "P2" "Y") Hnew) as [Hcreate Hread].
  assert (books_id_seq db_one_book ∉ Book.id <$> books db_one_book) as Hfresh.
  { apply (bool_decide_eq_true_1 (_ ∉ _)). vm_compute. reflexivity. }
  assert (bindable_book (BookCreate.mk "T2" "A2" "P2" "Y")) as Hbind.
  { repeat split; vm_compute; reflexivity. }
  split; [exact (Hcreate Hfresh Hbind)|].
  exact (Hread [] _ _ _ (Hcreate Hfresh Hbind)).
Defined.

(** ** Deleting a reader *)

Lemma elem_of_delete_loans l pks ls :
  l ∈ delete_loans pks ls ↔ l ∈ ls ∧ Loan.id l ∉ pks.
Proof.
  revert ls. induction pks as [|pk pks IH]; intros ls; simpl.
  - split; [|by intros [? _]]. intros Hl. split; [done|]. apply not_elem_of_nil.
  - rewrite IH, list_elem_of_filter, not_elem_of_cons. tauto.
Qed.

Lemma for_each_delete_loans (ls : list Loan.t) d p fs :
  for_each ls (λ loan, delete (Delete_Loan (Loan.id loan))) (mkWorld d p fs) =
  (mkWorld d (p ++ (Delete_Loan <$> (Loan.id <$> ls))) fs, Return ()).
Proof.
  revert p. induction ls as [|l ls IH]; intros p; simpl.
  - by rewrite app_nil_r.
  - rewrite bind_run. unfold delete at 1, add at 1. simpl.
    rewrite IH. by rewrite <- app_assoc.
Qed.

Lemma flush_delete_loans pks pk d :
  flush ((Delete_Loan <$> pks) ++ [Delete_Reader pk]) d =
  (mkDatabase (books d)
     (filter (λ r, Reader.id r ≠ pk) (readers d))
     (delete_loans pks (loans d))
     (books_id_seq d) (readers_id_seq d) (loans_id_seq d),
   Return []).
Proof.
  revert d. induction pks as [|k pks IH]; intros d; [done|].
  cbn [fmap list_fmap app flush flush_one]. rewrite IH. done.
Qed.

Lemma delete_reader_run d reader_id fs :
  run (delete_reader reader_id) fs d =
  if lost fs then (d, Raise (HTTPException 500 (Str OperationalError)))
  else if bool_decide (reader_id ∈ Reader.id <$> readers d) then
    if lost (tail fs) then (d, Raise (HTTPException 500 (Str OperationalError)))
    else if lost (tail (tail fs)) then
      (d, Raise (HTTPException 500 (Str OperationalError)))
    else
      (without_reader d reader_id,
       Return "Reader deleted successfully and loans removed")
  else
    (d, Raise (HTTPException 500 (Str (HTTPException 404 (Text "Reader not found"))))).
Proof.
  unfold run, delete_reader, try_except.
  rewrite bind_run, q_first_eq by done.
  destruct (lost fs); [done|]. simpl.
  case_bool_decide as Hin.
  - destruct (head _) as [r|] eqn:Hhd.
    2:{ pose proof (proj1 (head_filter_None _ _) Hhd) as Hno.
        apply list_elem_of_fmap in Hin as (r & -> & Hr). by destruct (Hno r Hr). }
    apply head_filter_Some in Hhd as [Hid _].
    rewrite bind_run, q_all_eq.
    destruct (lost (tail fs)); [done|].
    unfold page. simpl.
    rewrite bind_run, for_each_delete_loans. simpl.
    rewrite bind_run. simpl. rewrite bind_run, commit_eq.
    destruct (lost (tail (tail fs))); [done|].
    unfold flush_and_commit. cbn [pending database faults].
    rewrite flush_delete_loans, Hid. done.
  - rewrite head_filter_key_None; done.
Qed.

Lemma page_elem_of {A} off lim (rows res : list A) x :
  page off lim rows = Return res → x ∈ res → x ∈ rows.
Proof.
  unfold page. destruct (negative off || negative lim); [done|].
  destruct (beyond_bigint off || beyond_bigint lim); [done|].
  intros [= <-] Hx.
  assert (x ∈ apply_offset off rows) as Hx'.
  { destruct lim; simpl in Hx; [by eapply subseteq_take|done]. }
  destruct off; simpl in Hx'; [by eapply subseteq_drop|done].
Qed.

Lemma q_join_elem_of {A B} (right : Database → list B) fk key (q : Query A) d x :
  x ∈ q_rows (q_join right fk key q) d → x ∈ q_rows q d.
Proof.
  simpl. intros (a & Hx & Ha)%list_elem_of_bind.
  apply list_elem_of_fmap in Hx as (_ & -> & _). done.
Qed.

(** Whatever [GET /loans/details/] returns comes from the [loans] table. *)
Lemma get_loan_details_elem_of skip limit fs d d' ls l :
  run (get_loan_details skip limit) fs d = (d', Return ls) →
  l ∈ ls → l ∈ loans d.
Proof.
  unfold run, get_loan_details. rewrite bind_run, q_all_eq.
  destruct (lost fs); [done|].
  destruct (page _ _ _) as [rows|] eqn:Hpage; [|done].
  destruct rows as [|l0 rows]; [done|]. simpl. intros [= _ <-] Hl.
  eapply page_elem_of in Hpage; [|done].
  by do 2 apply q_join_elem_of in Hpage.
Qed.

(** C5. For a reader id present in [readers], [DELETE /readers/{id}]
    succeeds when the connection holds; and whenever it succeeds, no row
    of [loans] refers to that reader any more, the reader is gone, and
    nothing a later [GET /loans/details/] returns refers to the reader,
    whatever its page. *)
Theorem delete_reader_then_loan_details d reader_id :
  reader_id ∈ Reader.id <$> readers d →
  run (delete_reader reader_id) [] d =
    (without_reader d reader_id,
     Return "Reader deleted successfully and loans removed") ∧
  (∀ fs d' msg,
     run (delete_reader reader_id) fs d = (d', Return msg) →
     (∀ l, l ∈ loans d' → Loan.reader_id l ≠ reader_id) ∧
     (reader_id ∉ Reader.id <$> readers d') ∧
     (∀ skip limit fs' d'' ls l,
        run (get_loan_details skip limit) fs' d' = (d'', Return ls) →
        l ∈ ls → Loan.reader_id l ≠ reader_id)).
Proof.
  intros Hin. split.
  { rewrite delete_reader_run. simpl. by rewrite bool_decide_eq_true_2. }
  intros fs d' msg Hrun. rewrite delete_reader_run in Hrun.
  repeat case_match; simplify_eq.
  assert (∀ l, l ∈ loans (without_reader d reader_id) →
               Loan.reader_id l ≠ reader_id) as Hloans.
  { intros l [Hl Hpk]%elem_of_delete_loans Hr. apply Hpk.
    apply list_elem_of_fmap_2. by apply list_elem_of_filter. }
  split; [done|]. split.
  - intros (r & Hid & Hr)%list_elem_of_fmap.
    apply list_elem_of_filter in Hr as [Hne _]. done.
  - intros skip limit fs' d'' ls l Hdetails Hl.
    apply Hloans. by eapply get_loan_details_elem_of.
Qed.

Lemma delete_reader_then_loan_details_witness :
  run (delete_reader 1) [] db_loans =
    (without_reader db_loans 1,
     Return "Reader deleted successfully and loans removed") ∧
  loans (without_reader db_loans 1) = [Loan.mk 2 1 2] ∧
  run (get_loan_details 0 10) [] (without_reader db_loans 1) =
    (without_reader db_loans 1, Return [Loan.mk 2 1 2]).
Proof.
  assert (1 ∈ Reader.id <$> readers db_loans) as Hin.
  { apply (bool_decide_eq_true_1 (_ ∈ _)). vm_compute. reflexivity. }
  destruct (delete_reader_then_loan_details db_loans 1 Hin) as [Hrun _].
  split; [exact Hrun|]. split; vm_compute; reflexivity.
Defined.

(** ** Searching books *)

Lemma page_nonneg {A} (skip limit : Z) (rows : list A) :
  in_range skip → in_range limit →
  page (Some skip) (Some limit) rows =
  Return (take (Z.to_nat limit) (drop (Z.to_nat skip) rows)).
Proof.
  intros [Hskip Hskip'] [Hlimit Hlimit']. unfold page, negative, beyond_bigint.
  by rewrite !bool_decide_eq_false_2 by lia.
Qed.

Lemma filter_all {A} (P : A → Prop) `{∀ x, Decision (P x)} (l : list A) :
  (∀ x, P x) → filter P l = l.
Proof.
  intros HP. induction l as [|x l IH]; [done|].
  by rewrite filter_cons_True, IH.
Qed.

Lemma status_not_found_or {A} detail (rows : list A) :
  status (not_found_or detail rows) = 404 ↔ rows = [].
Proof. by destruct rows. Qed.

Lemma if_given_filter (col : Book.t → string) param (q : Query Book.t) :
  let q' := if_given param (λ s, q_filter (λ b, col b = s)) q in
  q_offset q' = q_offset q ∧ q_limit q' = q_limit q ∧
  ∀ d, q_rows q' d = filter (λ b, applied param (col b)) (q_rows q d).
Proof.
  destruct param as [s|]; simpl.
  - case_bool_decide as Hs; simpl.
    + repeat split. intros d. rewrite filter_all; [done|]. by left.
    + repeat split. intros d. apply list_filter_iff. intros b. split; [by right|].
      by intros [?|?].
  - repeat split. intros d. by rewrite filter_all.
Qed.

Lemma search_books_run d author topic skip limit :
  in_range skip → in_range limit →
  run (search_books author topic skip limit) [] d =
  (d, not_found_or "No books found with given criteria"
        (take (Z.to_nat limit) (drop (Z.to_nat skip)
           (filter (λ b, applied topic (Book.topic b) ∧ applied author (Book.author b))
                   (books d))))).
Proof.
  intros Hskip Hlimit. unfold run, search_books.
  rewrite bind_run, q_all_eq. cbn [lost head default tail q_limit_by q_offset_by
    q_offset q_limit q_rows].
  rewrite page_nonneg by done.
  destruct (if_given_filter Book.author author query_Book) as (_ & _ & Ha).
  destruct (if_given_filter Book.topic topic
              (if_given author (λ a, q_filter (λ b, Book.author b = a)) query_Book))
    as (_ & _ & Ht).
  rewrite Ht, Ha, list_filter_filter. simpl.
  by destruct (take _ _).
Qed.

(** C3, counterexample.  With the author given as the empty string the
    handler's [if author:] is false, no filter is applied, and the one
    book of the table (author "A1") is returned with status 200, though
    no row has the empty author. *)
Lemma search_books_empty_author_returns_all :
  ¬ search_books_as_specified db_one_book (Some "") None 0 10.
Proof.
  intros [Hstatus _]. vm_compute in Hstatus.
  destruct Hstatus as [_ Hstatus]. specialize (Hstatus eq_refl). discriminate.
Qed.

(** C3, amended.  For [skip] and [limit] in the range the server
    accepts (from 0 and below [2 ^ 63]) and an author and a topic the
    driver binds (no character NUL), [GET /books/search/] answers with
    the page of the rows that equal every parameter that is given and
    not empty (all of them have to hold), and with the 404 exactly when
    that page is empty, as it is when no row matches. *)
Theorem search_books_page d author topic skip limit :
  in_range skip → in_range limit →
  bindable_param author → bindable_param topic →
  let matching :=
    filter (λ b, applied topic (Book.topic b) ∧ applied author (Book.author b))
           (books d) in
  let rows := take (Z.to_nat limit) (drop (Z.to_nat skip) matching) in
  run (search_books author topic skip limit) [] d =
    (d, not_found_or "No books found with given criteria" rows) ∧
  (status (run (search_books author topic skip limit) [] d).2 = 404 ↔ rows = []) ∧
  (matching = [] → status (run (search_books author topic skip limit) [] d).2 = 404).
Proof.
  intros Hskip Hlimit _ _ matching rows.
  rewrite search_books_run by done. fold matching. fold rows. simpl.
  split; [done|]. split; [apply status_not_found_or|].
  intros Hnone. apply status_not_found_or. unfold rows.
  by rewrite Hnone, drop_nil, take_nil.
Qed.

Lemma search_books_page_witness :
  run (search_books (Some "A1") (Some "") 0 10) [] db_one_book =
    (db_one_book, Return [Book.mk 1 "Dup" "A1" "P1" "X" None]) ∧
  run (search_books (Some "A2") None 0 10) [] db_one_book =
    (db_one_book,
     Raise (HTTPException 404 (Text "No books found with given criteria"))).
Proof.
  split.
  - apply (search_books_page db_one_book (Some "A1") (Some "") 0 10);
      solve [apply (bool_decide_eq_true_1 (in_range _)); vm_compute; reflexivity
            | vm_compute; reflexivity | exact I].
  - apply (search_books_page db_one_book (Some "A2") None 0 10);
      solve [apply (bool_decide_eq_true_1 (in_range _)); vm_compute; reflexivity
            | vm_compute; reflexivity | exact I].
Defined.

(** C10. An author or a topic given as the empty string leaves
    [GET /books/search/] the very computation it is with the parameter
    left out: the empty string is no filter. *)
Theorem search_books_empty_string_is_no_filter author topic skip limit :
  search_books (Some "") topic skip limit = search_books None topic skip limit ∧
  search_books author (Some "") skip limit = search_books author None skip limit.
Proof. split; reflexivity. Qed.

(** ** Counting books by topic *)

Section Counting.
Implicit Types (k x : string) (keys ks : list string).

Lemma count_of_cons k x keys :
  count_of k (x :: keys) = (if bool_decide (x = k) then 1 else 0) + count_of k keys.
Proof.
  unfold count_of. case_bool_decide.
  - rewrite filter_cons_True by done. simpl length. lia.
  - rewrite filter_cons_False by done. lia.
Qed.

Lemma sum_indicator x ks :
  NoDup ks →
  foldr Z.add 0 ((λ k, if bool_decide (x = k) then 1 else 0) <$> ks) =
  if bool_decide (x ∈ ks) then 1 else 0.
Proof.
  induction 1 as [|k ks Hk Hnd IH]; [done|].
  rewrite fmap_cons. cbn [foldr]. rewrite IH.
  destruct (decide (x = k)) as [->|Hne].
  - rewrite (bool_decide_eq_true_2 (k = k)) by done.
    rewrite (bool_decide_eq_false_2 (k ∈ ks)) by done.
    rewrite (bool_decide_eq_true_2 (k ∈ k :: ks)) by left. done.
  - rewrite (bool_decide_eq_false_2 (x = k)) by done.
    rewrite (bool_decide_ext (x ∈ k :: ks) (x ∈ ks)); [done|].
    rewrite elem_of_cons. tauto.
Qed.

Lemma sum_count_of keys ks :
  NoDup ks → (∀ x, x ∈ keys → x ∈ ks) →
  foldr Z.add 0 ((λ k, count_of k keys) <$> ks) = Z.of_nat (length keys).
Proof.
  intros Hnd. induction keys as [|x keys IH]; intros Hsub.
  - clear. induction ks as [|k ks IH]; [done|].
    rewrite fmap_cons. cbn [foldr]. by rewrite IH.
  - assert (foldr Z.add 0 ((λ k, count_of k (x :: keys)) <$> ks) =
            foldr Z.add 0 ((λ k, if bool_decide (x = k) then 1 else 0) <$> ks)
            + foldr Z.add 0 ((λ k, count_of k keys) <$> ks)) as ->.
    { clear. induction ks as [|k ks IH]; [done|].
      rewrite !fmap_cons. cbn [foldr]. rewrite IH, count_of_cons. lia. }
    rewrite sum_indicator by done.
    rewrite IH by (intros y Hy; apply Hsub; by right).
    rewrite bool_decide_eq_true_2 by (apply Hsub; left). simpl length. lia.
Qed.

Lemma group_count_keys keys : (group_count keys).*1 = remove_dups keys.
Proof.
  unfold group_count. rewrite <- list_fmap_compose.
  rewrite <- (list_fmap_id (remove_dups keys)) at 2. done.
Qed.

Lemma sum_counts_group_count keys :
  sum_counts (group_count keys) = Z.of_nat (length keys).
Proof.
  unfold sum_counts, group_count. rewrite <- list_fmap_compose.
  apply sum_count_of; [apply NoDup_remove_dups|].
  intros x. by rewrite elem_of_remove_dups.
Qed.
End Counting.

Lemma count_of_topic (t : string) (bs : list Book.t) :
  count_of t (Book.topic <$> bs) =
  Z.of_nat (length (filter (λ b, Book.topic b = t) bs)).
Proof.
  induction bs as [|b bs IH]; [done|].
  rewrite fmap_cons, count_of_cons, IH. case_bool_decide.
  - rewrite filter_cons_True by done. simpl length. lia.
  - rewrite filter_cons_False by done. lia.
Qed.

Lemma count_books_by_topic_in_run arrange d skip limit :
  in_range skip → in_range limit →
  run (count_books_by_topic_in arrange skip limit) [] d =
  (d, not_found_or "No books found"
        (take (Z.to_nat limit) (drop (Z.to_nat skip)
           (arrange (group_count (Book.topic <$> books d)))))).
Proof.
  intros Hskip Hlimit. unfold run, count_books_by_topic_in.
  rewrite bind_run, q_all_eq. simpl. rewrite page_nonneg by done.
  by destruct (take _ _).
Qed.

Lemma count_books_by_topic_in_same skip limit :
  count_books_by_topic_in (λ groups, groups) skip limit =
  count_books_by_topic skip limit.
Proof. reflexivity. Qed.

Lemma not_found_or_404 {A} detail (rows : list A) :
  not_found_or detail rows = Raise (HTTPException 404 (Text detail)) ↔ rows = [].
Proof. by destruct rows. Qed.

Lemma sum_counts_Permutation (gs gs' : list (string * Z)) :
  gs ≡ₚ gs' → sum_counts gs = sum_counts gs'.
Proof.
  intros Hperm. unfold sum_counts.
  assert (gs.*2 ≡ₚ gs'.*2) as Hperm2 by (by rewrite Hperm).
  clear Hperm. induction Hperm2; simpl; lia.
Qed.

(** C4, counterexample.  One book is stored, so there is one group;
    asked to skip it, the handler finds its page empty and answers 404. *)
Lemma count_books_by_topic_empty_page :
  ¬ not_found_only_without_books db_one_book 1 10.
Proof.
  intros Honly. specialize (Honly eq_refl). discriminate Honly.
Qed.

(** C4, amended.  In whatever order the server hands the groups over,
    they hold one pair per distinct topic of the [books] table, each
    with the number of rows of that topic, and these numbers add up to
    the number of rows.  For [skip] and [limit] in the range the server
    accepts, what [count_books_by_topic] hands to the framework is the
    page of that list, and it raises its 404 exactly when the page is
    empty: always when there is no book, and also when [skip] passes
    the last group or [limit] is 0.  The database is not touched. *)
Theorem count_books_by_topic_page arrange d skip limit :
  (∀ groups, arrange groups ≡ₚ groups) →
  in_range skip → in_range limit →
  let groups := arrange (group_count (Book.topic <$> books d)) in
  let rows := take (Z.to_nat limit) (drop (Z.to_nat skip) groups) in
  let answer := run (count_books_by_topic_in arrange skip limit) [] d in
  (NoDup (groups.*1) ∧
   (∀ t, t ∈ groups.*1 ↔ t ∈ Book.topic <$> books d) ∧
   (∀ t n, (t, n) ∈ groups →
      n = Z.of_nat (length (filter (λ b, Book.topic b = t) (books d)))) ∧
   sum_counts groups = Z.of_nat (length (books d))) ∧
  answer.1 = d ∧
  (∀ found, answer.2 = Return found ↔ found = rows ∧ rows ≠ []) ∧
  (answer.2 = Raise (HTTPException 404 (Text "No books found")) ↔ rows = []) ∧
  (books d = [] → answer.2 = Raise (HTTPException 404 (Text "No books found"))) ∧
  (limit = 0 ∨ Z.of_nat (length groups) ≤ skip →
   answer.2 = Raise (HTTPException 404 (Text "No books found"))).
Proof.
  intros Harrange Hskip Hlimit groups rows answer.
  unfold answer. rewrite count_books_by_topic_in_run by done.
  fold groups. fold rows. cbn [fst snd].
  pose proof (Harrange (group_count (Book.topic <$> books d))) as Hperm.
  fold groups in Hperm.
  split; [|split; [done|split; [|split; [apply not_found_or_404|split]]]].
  - assert (groups.*1 ≡ₚ remove_dups (Book.topic <$> books d)) as Hkeys.
    { rewrite <- group_count_keys. by rewrite Hperm. }
    split; [rewrite Hkeys; apply NoDup_remove_dups|].
    split; [intros t; rewrite Hkeys; apply elem_of_remove_dups|]. split.
    + intros t n Hin. rewrite Hperm in Hin.
      apply list_elem_of_fmap in Hin as (k & [= -> ->] & _). apply count_of_topic.
    + by rewrite (sum_counts_Permutation _ _ Hperm), sum_counts_group_count,
        length_fmap.
  - intros found. destruct rows as [|r rows']; simpl.
    + split; [done|by intros [_ ?]].
    + split; [by intros [= <-]|by intros [-> _]].
  - intros Hnone. apply not_found_or_404. unfold rows.
    assert (groups = []) as ->; [|by rewrite drop_nil, take_nil].
    apply Permutation_nil_r. rewrite Hperm. by rewrite Hnone.
  - intros Hout. apply not_found_or_404. unfold rows.
    destruct Hout as [->|Hpast]; [done|].
    rewrite drop_ge by lia. apply take_nil.
Qed.

Lemma count_books_by_topic_page_witness :
  (run (count_books_by_topic_in reverse 0 10) [] db_topics).2 =
    Return [("X", 2); ("Y", 1)] ∧
  (run (count_books_by_topic_in reverse 2 10) [] db_topics).2 =
    Raise (HTTPException 404 (Text "No books found")).
Proof.
  assert (∀ groups : list (string * Z), reverse groups ≡ₚ groups) as Hrev.
  { intros groups. apply reverse_Permutation. }
  assert (in_range 0) as H0.
  { apply (bool_decide_eq_true_1 (in_range _)). vm_compute. reflexivity. }
  assert (in_range 2) as H2.
  { apply (bool_decide_eq_true_1 (in_range _)). vm_compute. reflexivity. }
  assert (in_range 10) as H10.
  { apply (bool_decide_eq_true_1 (in_range _)). vm_compute. reflexivity. }
  split.
  - destruct (count_books_by_topic_page reverse db_topics 0 10 Hrev H0 H10)
      as (_ & _ & Hfound & _).
    apply Hfound. split; [vm_compute; reflexivity|vm_compute; discriminate].
  - destruct (count_books_by_topic_page reverse db_topics 2 10 Hrev H2 H10)
      as (_ & _ & _ & H404 & _).
    apply H404. vm_compute. reflexivity.
Defined.

(** ** Listing books *)

Section Ordering.
Context (collate : relation string) `{!∀ x y, Decision (collate x y)}.
Context `{!Total collate} `{!Transitive collate}.

Local Instance asc_total col : Total (asc collate col).
Proof. intros a b. apply (total collate). Qed.

Local Instance asc_transitive col : Transitive (asc collate col).
Proof.
  intros a b c Hab Hbc. unfold asc in *.
  eapply (@transitivity _ collate _); eassumption.
Qed.

Local Instance desc_total col : Total (desc collate col).
Proof. intros a b. apply (total collate). Qed.

Local Instance desc_transitive col : Transitive (desc collate col).
Proof.
  intros a b c Hab Hbc. unfold desc in *.
  eapply (@transitivity _ collate _); eassumption.
Qed.


End Ordering.



(** ** The requests of section 8 of the specification, run *)

(** Two books titled "Dup": the second [POST /books/] is answered 500. *)
Example scenario_duplicate_title :
  let first := run (create_book (BookCreate.mk "Dup" "A1" "P1" "X")) []
                   (mkDatabase [] [] [] 1 1 1) in
  first = (db_one_book,
           Return ("Book added successfully", Book.mk 1 "Dup" "A1" "P1" "X" None)) ∧
  status (run (create_book (BookCreate.mk "Dup" "A2" "P2" "Y")) [] first.1).2 = 500.
Proof. vm_compute. done. Qed.

(** [GET /books/{nonexistent}] is answered 404: [read_book] has no
    [try] block around its [raise]. *)
Example scenario_read_book_absent :
  run (read_book 7) [] db_one_book =
  (db_one_book, Raise (HTTPException 404 (Text "Book not found"))).
Proof. reflexivity. Qed.

(** The three books by author, descending, and under a column name the
    handler does not know. *)
Example scenario_read_books :
  (run (read_books String.le 0 10 "author" false) [] db_topics).2 =
    Return [Book.mk 2 "T2" "A2" "P2" "Y" None;
            Book.mk 3 "T3" "A1" "P3" "X" None;
            Book.mk 1 "T1" "A1" "P1" "X" None] ∧
  (run (read_books String.le 1 10 "id" true) [] db_topics).2 =
    Return [Book.mk 2 "T2" "A2" "P2" "Y" None;
            Book.mk 3 "T3" "A1" "P3" "X" None].
Proof. vm_compute. done. Qed.

(** ** Looking a book up, deleting it, renaming its publisher *)

Lemma head_filter_key_Some {A} (key : A → Z) (k : Z) (l : list A) :
  k ∈ key <$> l →
  ∃ x, head (filter (λ x, key x = k) l) = Some x ∧ key x = k ∧ x ∈ l.
Proof.
  intros (x & -> & Hx)%list_elem_of_fmap.
  destruct (head (filter (λ y, key y = key x) l)) as [y|] eqn:Hhd.
  - exists y. by apply head_filter_Some in Hhd as [? ?].
  - pose proof (proj1 (head_filter_None _ _) Hhd) as Hno. by destruct (Hno x Hx).
Qed.

Lemma read_book_run d book_id fs :
  run (read_book book_id) fs d =
  (d, if lost fs then Raise OperationalError
      else match head (filter (λ b, Book.id b = book_id) (books d)) with
           | Some b => Return b
           | None => Raise (HTTPException 404 (Text "Book not found"))
           end).
Proof.
  unfold run, read_book. rewrite bind_run, q_first_eq by done.
  destruct (lost fs); [done|]. simpl. by destruct (head _).
Qed.

(** [GET /books/{book_id}] answers 404 exactly for an id no row
    carries; what it returns otherwise is a row of [books] with that id;
    the database is not touched. *)
Theorem read_book_lookup d book_id :
  (run (read_book book_id) [] d).1 = d ∧
  (status (run (read_book book_id) [] d).2 = 404 ↔ book_id ∉ Book.id <$> books d) ∧
  (book_id ∈ Book.id <$> books d → ∃ b, (run (read_book book_id) [] d).2 = Return b) ∧
  (∀ b, (run (read_book book_id) [] d).2 = Return b →
        b ∈ books d ∧ Book.id b = book_id).
Proof.
  rewrite read_book_run. simpl.
  destruct (decide (book_id ∈ Book.id <$> books d)) as [Hin|Hout].
  - destruct (head_filter_key_Some _ _ _ Hin) as (b & -> & Hid & Hb). simpl.
    split; [done|]. split; [split; [done|by intros []]|].
    split; [by exists b|]. by intros b' [= <-].
  - rewrite head_filter_key_None by done. simpl.
    split; [done|]. split; [by split|]. split; [by intros ?|done].
Qed.

Lemma delete_book_run d book_id fs :
  run (delete_book book_id) fs d =
  if lost fs then (d, Raise (HTTPException 500 (Str OperationalError)))
  else if bool_decide (book_id ∈ Book.id <$> books d) then
    if lost (tail fs) then (d, Raise (HTTPException 500 (Str OperationalError)))
    else (without_book d book_id, Return "Book deleted successfully")
  else
    (d, Raise (HTTPException 500 (Str (HTTPException 404 (Text "Book not found"))))).
Proof.
  unfold run, delete_book, try_except.
  rewrite bind_run, q_first_eq by done.
  destruct (lost fs); [done|]. simpl.
  case_bool_decide as Hin.
  - destruct (head_filter_key_Some _ _ _ Hin) as (b & -> & Hid & Hb).
    rewrite bind_run. simpl. rewrite bind_run, commit_eq.
    destruct (lost (tail fs)); [done|]. simpl. by rewrite Hid.
  - by rewrite head_filter_key_None.
Qed.

Lemma update_books_publisher_run d book_id p fs :
  run (update_books_publisher book_id p) fs d =
  if lost fs then (d, Raise (HTTPException 500 (Str OperationalError)))
  else if bool_decide (book_id ∈ Book.id <$> books d) then
    if lost (tail fs) then (d, Raise (HTTPException 500 (Str OperationalError)))
    else (with_publisher d book_id p, Return "Book updated successfully")
  else
    (d, Raise (HTTPException 500
                 (Str (HTTPException 404 (Text "Book not found with the given ID"))))).
Proof.
  unfold run, update_books_publisher, try_except.
  rewrite bind_run, q_first_eq by done.
  destruct (lost fs); [done|]. simpl.
  case_bool_decide as Hin.
  - destruct (head_filter_key_Some _ _ _ Hin) as (b & -> & Hid & Hb).
    rewrite bind_run. simpl. rewrite bind_run, commit_eq.
    destruct (lost (tail fs)); [done|]. simpl. by rewrite Hid.
  - by rewrite head_filter_key_None.
Qed.

Lemma not_elem_of_without_book d book_id :
  book_id ∉ Book.id <$> books (without_book d book_id).
Proof.
  intros (b & Hid & Hb)%list_elem_of_fmap.
  by apply list_elem_of_filter in Hb as [Hne _].
Qed.

Lemma get_loan_details_with_both skip limit fs d d' ls l :
  run (get_loan_details skip limit) fs d = (d', Return ls) →
  l ∈ ls → with_both d l.
Proof.
  unfold run, get_loan_details. rewrite bind_run, q_all_eq.
  destruct (lost fs); [done|].
  destruct (page _ _ _) as [rows|] eqn:Hpage; [|done].
  destruct rows as [|l0 rows]; [done|]. simpl. intros [= _ <-] Hl.
  eapply page_elem_of in Hpage; [|done].
  simpl in Hpage.
  apply list_elem_of_bind in Hpage as (l1 & Hl1 & Hjoin).
  apply list_elem_of_fmap in Hl1 as (r & -> & Hr).
  apply list_elem_of_filter in Hr as [Hrid Hr].
  apply list_elem_of_bind in Hjoin as (l2 & Hl2 & _).
  apply list_elem_of_fmap in Hl2 as (b & -> & Hb).
  apply list_elem_of_filter in Hb as [Hbid Hb].
  split.
  - rewrite Hbid. by apply list_elem_of_fmap_2.
  - rewrite Hrid. by apply list_elem_of_fmap_2.
Qed.

(** [DELETE /books/{book_id}] for an id some row carries succeeds when
    the connection holds.  Whenever it succeeds, the rows with that id
    are gone and every other row of [books] is where it was; [readers]
    and [loans] are as before (the loans of the book are not deleted);
    a [GET /books/{book_id}] that follows is answered 404, and no page
    of [GET /loans/details/] shows a loan of the deleted book. *)
Theorem delete_book_present d book_id :
  book_id ∈ Book.id <$> books d →
  run (delete_book book_id) [] d =
    (without_book d book_id, Return "Book deleted successfully") ∧
  (∀ fs d' msg,
     run (delete_book book_id) fs d = (d', Return msg) →
     books d' = filter (λ b, Book.id b ≠ book_id) (books d) ∧
     readers d' = readers d ∧ loans d' = loans d ∧
     run (read_book book_id) [] d' =
       (d', Raise (HTTPException 404 (Text "Book not found"))) ∧
     (∀ skip limit fs' d'' ls l,
        run (get_loan_details skip limit) fs' d' = (d'', Return ls) →
        l ∈ ls → Loan.book_id l ≠ book_id)).
Proof.
  intros Hin. split.
  { rewrite delete_book_run. simpl. by rewrite bool_decide_eq_true_2. }
  intros fs d' msg Hrun. rewrite delete_book_run in Hrun.
  repeat case_match; simplify_eq.
  split; [done|]. split; [done|]. split; [done|]. split.
  - rewrite read_book_run. simpl.
    by rewrite head_filter_key_None by apply not_elem_of_without_book.
  - intros skip limit fs' d'' ls l Hdetails Hl Hid.
    eapply get_loan_details_with_both in Hdetails as [Hbook _]; [|done].
    rewrite Hid in Hbook. by apply not_elem_of_without_book in Hbook.
Qed.

Lemma delete_book_present_witness :
  run (delete_book 1) [] db_loans =
    (without_book db_loans 1, Return "Book deleted successfully") ∧
  loans (without_book db_loans 1) = loans db_loans ∧
  run (get_loan_details 0 10) [] (without_book db_loans 1) =
    (without_book db_loans 1, Raise (HTTPException 404 (Text "No loans found"))).
Proof.
  assert (1 ∈ Book.id <$> books db_loans) as Hin.
  { apply (bool_decide_eq_true_1 (_ ∈ _)). vm_compute. reflexivity. }
  destruct (delete_book_present db_loans 1 Hin) as [Hrun _].
  split; [exact Hrun|]. split; vm_compute; reflexivity.
Defined.

(** What an update leaves in the table, whatever the place of the rows. *)
Lemma update_rows_Permutation k g bs : update_rows k g bs ≡ₚ rewritten k g bs.
Proof.
  unfold update_rows, rewritten. induction bs as [|x bs IH]; [done|].
  rewrite fmap_cons.
  destruct (decide (Book.id x = k ∧ g x ≠ x)) as [Hx|Hx].
  - rewrite filter_cons_False by tauto. rewrite filter_cons_True by done.
    rewrite fmap_cons, <- Permutation_middle.
    rewrite bool_decide_eq_true_2 by tauto. by rewrite IH.
  - rewrite filter_cons_True by done. rewrite filter_cons_False by done.
    rewrite <- app_comm_cons, IH. case_bool_decide as Hk; [|done].
    destruct (decide (g x = x)) as [->|Hg]; [done|]. by destruct Hx.
Qed.

Lemma filter_key_rewritten k g bs :
  (∀ x, Book.id (g x) = Book.id x) →
  filter (λ b, Book.id b = k) (rewritten k g bs) =
  g <$> filter (λ b, Book.id b = k) bs.
Proof.
  intros Hkey. unfold rewritten. induction bs as [|x bs IH]; [done|].
  rewrite fmap_cons. case_bool_decide as Hk.
  - rewrite !filter_cons_True by (by rewrite ?Hkey). by rewrite fmap_cons, IH.
  - by rewrite !filter_cons_False.
Qed.

Lemma filter_other_rewritten k g bs :
  (∀ x, Book.id (g x) = Book.id x) →
  filter (λ b, Book.id b ≠ k) (rewritten k g bs) =
  filter (λ b, Book.id b ≠ k) bs.
Proof.
  intros Hkey. unfold rewritten. induction bs as [|x bs IH]; [done|].
  rewrite fmap_cons. case_bool_decide as Hk.
  - by rewrite !filter_cons_False by (rewrite ?Hkey; tauto).
  - rewrite !filter_cons_True by done. by rewrite IH.
Qed.

Lemma elem_of_other_rewritten k g bs b :
  (∀ x, Book.id (g x) = Book.id x) →
  Book.id b ≠ k → b ∈ rewritten k g bs ↔ b ∈ bs.
Proof.
  intros Hkey Hb.
  assert (∀ l : list Book.t, b ∈ l ↔ b ∈ filter (λ b, Book.id b ≠ k) l)
    as Hfilter.
  { intros l. rewrite list_elem_of_filter. tauto. }
  rewrite (Hfilter (rewritten k g bs)), (Hfilter bs).
  by rewrite filter_other_rewritten.
Qed.

Lemma ids_rewritten k g bs :
  (∀ x, Book.id (g x) = Book.id x) →
  Book.id <$> rewritten k g bs = Book.id <$> bs.
Proof.
  intros Hkey. unfold rewritten. rewrite <- list_fmap_compose.
  apply list_fmap_ext. intros i x _. simpl. case_bool_decide; [apply Hkey|done].
Qed.

Lemma filter_key_one (k : Z) (bs : list Book.t) b :
  NoDup (Book.id <$> bs) →
  head (filter (λ b, Book.id b = k) bs) = Some b →
  filter (λ b, Book.id b = k) bs = [b].
Proof.
  induction bs as [|x bs IH]; [done|].
  rewrite fmap_cons, NoDup_cons. intros [Hx Hnd].
  destruct (decide (Book.id x = k)) as [Hk|Hk].
  - rewrite filter_cons_True by done. intros [= ->]. f_equal.
    apply head_None. apply head_filter_key_None. by rewrite <- Hk.
  - rewrite filter_cons_False by done. by apply IH.
Qed.

(** With distinct keys, the row an update rewrote is the one a lookup
    by its key finds afterwards. *)
Lemma head_filter_update_rows k g bs b :
  NoDup (Book.id <$> bs) →
  (∀ x, Book.id (g x) = Book.id x) →
  head (filter (λ b, Book.id b = k) bs) = Some b →
  head (filter (λ b, Book.id b = k) (update_rows k g bs)) = Some (g b).
Proof.
  intros Hnd Hkey Hhd.
  assert (filter (λ b, Book.id b = k) (update_rows k g bs) ≡ₚ [g b]) as Hperm.
  { rewrite update_rows_Permutation, filter_key_rewritten by done.
    by rewrite (filter_key_one k bs b). }
  apply Permutation_singleton_r in Hperm. by rewrite Hperm.
Qed.

(** With distinct keys in [books], when [GET /books/{book_id}] finds a
    row and the new publisher is a string the driver binds, [PUT
    /books/update_publisher/] for the same id succeeds while the
    connection holds, and the [GET] repeated afterwards returns that row
    with the new publisher and every other field as it was.  The table
    then holds the rows it held, the one with that id rewritten, in an
    order the statement leaves open; the rows with another id are the
    same, and [readers] and [loans] are not touched. *)
Theorem update_books_publisher_then_read_book d book_id p b :
  NoDup (Book.id <$> books d) →
  bindable p →
  run (read_book book_id) [] d = (d, Return b) →
  ∃ d',
    run (update_books_publisher book_id p) [] d =
      (d', Return "Book updated successfully") ∧
    run (read_book book_id) [] d' = (d', Return (set_publisher p b)) ∧
    books d' ≡ₚ rewritten book_id (set_publisher p) (books d) ∧
    (∀ b', Book.id b' ≠ book_id → b' ∈ books d' ↔ b' ∈ books d) ∧
    readers d' = readers d ∧ loans d' = loans d.
Proof.
  intros Hnd _ Hread. rewrite read_book_run in Hread. simpl in Hread.
  destruct (head _) as [b0|] eqn:Hhd; simplify_eq.
  pose proof (head_filter_Some _ _ _ Hhd) as [Hid Hb].
  assert (book_id ∈ Book.id <$> books d) as Hin.
  { rewrite <- Hid. by apply list_elem_of_fmap_2. }
  exists (with_publisher d book_id p). split.
  { rewrite update_books_publisher_run. simpl. by rewrite bool_decide_eq_true_2. }
  split.
  { rewrite read_book_run. simpl.
    by rewrite (head_filter_update_rows _ _ _ b). }
  split; [apply update_rows_Permutation|].
  split; [|done].
  intros b' Hne. simpl. rewrite update_rows_Permutation.
  by apply elem_of_other_rewritten.
Qed.

Lemma update_books_publisher_then_read_book_witness :
  ∃ d',
    run (update_books_publisher 2 "P9") [] db_topics =
      (d', Return "Book updated successfully") ∧
    run (read_book 2) [] d' = (d', Return (Book.mk 2 "T2" "A2" "P9" "Y" None)).
Proof.
  assert (NoDup (Book.id <$> books db_topics)) as Hnd.
  { apply (bool_decide_eq_true_1 (NoDup _)). vm_compute. reflexivity. }
  assert (bindable "P9") as Hbind by (vm_compute; reflexivity).
  destruct (update_books_publisher_then_read_book db_topics 2 "P9"
              (Book.mk 2 "T2" "A2" "P2" "Y" None) Hnd Hbind eq_refl)
    as (d' & Hput & Hget & _).
  exists d'. split; [exact Hput|exact Hget].
Defined.

(** ** Deleting a reader: the missing reader, the other rows, failures *)

(** [DELETE /readers/{reader_id}] for an id no reader carries raises its
    404 inside the [try] block and answers 500; nothing is written. *)
Theorem delete_reader_absent d reader_id fs :
  reader_id ∉ Reader.id <$> readers d →
  (run (delete_reader reader_id) fs d).1 = d ∧
  status (run (delete_reader reader_id) fs d).2 = 500 ∧
  (lost fs = false →
   (run (delete_reader reader_id) fs d).2 =
   Raise (HTTPException 500 (Str (HTTPException 404 (Text "Reader not found"))))).
Proof.
  intros Habsent. rewrite delete_reader_run.
  rewrite bool_decide_eq_false_2 by done. by destruct (lost fs).
Qed.

Lemma delete_reader_absent_witness :
  (run (delete_reader 7) [] db_loans).1 = db_loans ∧
  status (run (delete_reader 7) [] db_loans).2 = 500 ∧
  (lost [] = false →
   (run (delete_reader 7) [] db_loans).2 =
   Raise (HTTPException 500 (Str (HTTPException 404 (Text "Reader not found"))))).
Proof.
  apply (delete_reader_absent db_loans 7 []).
  apply (bool_decide_eq_true_1 (_ ∉ _)). vm_compute. reflexivity.
Defined.

Lemma filter_ext_elem_of {A} (P Q : A → Prop) `{∀ x, Decision (P x)}
    `{∀ x, Decision (Q x)} (l : list A) :
  (∀ x, x ∈ l → (P x ↔ Q x)) → filter P l = filter Q l.
Proof.
  induction l as [|x l IH]; intros Hiff; [done|].
  assert (filter P l = filter Q l) as Htl.
  { apply IH. intros y Hy. apply Hiff. by right. }
  destruct (decide (P x)) as [HP|HP].
  - rewrite !filter_cons_True; [by rewrite Htl|by apply Hiff; [left|]|done].
  - rewrite !filter_cons_False; [done|..|done].
    intros HQ. apply HP. apply Hiff; [left|done].
Qed.

Lemma delete_loans_filter pks ls :
  delete_loans pks ls = filter (λ l, Loan.id l ∉ pks) ls.
Proof.
  revert ls. induction pks as [|pk pks IH]; intros ls; simpl.
  - symmetry. apply filter_all. intros l. apply not_elem_of_nil.
  - rewrite IH, list_filter_filter. apply list_filter_iff.
    intros l. rewrite not_elem_of_cons. tauto.
Qed.

Lemma NoDup_fmap_elem_of_inj {A} (key : A → Z) (l : list A) x y :
  NoDup (key <$> l) → x ∈ l → y ∈ l → key x = key y → x = y.
Proof.
  induction l as [|z l IH]; [by intros _ ?%not_elem_of_nil|].
  rewrite fmap_cons, NoDup_cons. intros [Hz Hnd].
  intros [->|Hx]%elem_of_cons [->|Hy]%elem_of_cons Hkey; [done|..].
  - destruct Hz. rewrite Hkey. by apply list_elem_of_fmap_2.
  - destruct Hz. rewrite <- Hkey. by apply list_elem_of_fmap_2.
  - by apply IH.
Qed.

(** Whenever [DELETE /readers/{reader_id}] succeeds, [books] is as it
    was and [readers] has lost exactly the rows with that id; when the
    keys of [loans] are distinct, [loans] has lost exactly the loans of
    that reader, and those of every other reader are where they were. *)
Theorem delete_reader_frame d reader_id fs d' msg :
  run (delete_reader reader_id) fs d = (d', Return msg) →
  books d' = books d ∧
  readers d' = filter (λ r, Reader.id r ≠ reader_id) (readers d) ∧
  (NoDup (Loan.id <$> loans d) →
   loans d' = filter (λ l, Loan.reader_id l ≠ reader_id) (loans d)).
Proof.
  intros Hrun. rewrite delete_reader_run in Hrun.
  repeat case_match; simplify_eq.
  split; [done|]. split; [done|]. intros Hkeys. simpl.
  rewrite delete_loans_filter. apply filter_ext_elem_of.
  intros l Hl. split.
  - intros Hpk Hr. apply Hpk. apply list_elem_of_fmap_2.
    by apply list_elem_of_filter.
  - intros Hne (l' & Hid & Hl')%list_elem_of_fmap.
    apply list_elem_of_filter in Hl' as [Hr Hl'].
    assert (l = l') as -> by (by eapply NoDup_fmap_elem_of_inj).
    done.
Qed.

Lemma delete_reader_frame_witness :
  books (run (delete_reader 1) [] db_loans).1 = books db_loans ∧
  readers (run (delete_reader 1) [] db_loans).1 =
    filter (λ r, Reader.id r ≠ 1) (readers db_loans) ∧
  (NoDup (Loan.id <$> loans db_loans) →
   loans (run (delete_reader 1) [] db_loans).1 =
     filter (λ l, Loan.reader_id l ≠ 1) (loans db_loans)).
Proof.
  apply (delete_reader_frame db_loans 1 [] _
           "Reader deleted successfully and loans removed").
  vm_compute. reflexivity.
Defined.

(** A [DELETE /books/{book_id}], a [DELETE /readers/{reader_id}] or a
    [PUT /books/update_publisher/] that fails, for whatever reason,
    leaves the database exactly as it was: these handlers do nothing
    after their commit, so their rollback undoes all there is. *)
Theorem failed_delete_or_rename_changes_nothing d fs d' e :
  (∀ book_id, run (delete_book book_id) fs d = (d', Raise e) → d' = d) ∧
  (∀ reader_id, run (delete_reader reader_id) fs d = (d', Raise e) → d' = d) ∧
  (∀ book_id p,
     run (update_books_publisher book_id p) fs d = (d', Raise e) → d' = d).
Proof.
  split; [|split].
  - intros k Hrun. rewrite delete_book_run in Hrun.
    repeat case_match; by simplify_eq.
  - intros k Hrun. rewrite delete_reader_run in Hrun.
    repeat case_match; by simplify_eq.
  - intros k p Hrun. rewrite update_books_publisher_run in Hrun.
    repeat case_match; by simplify_eq.
Qed.

(** ** The join of loans with their book and reader *)

Lemma filter_key_nil {B} (key : B → Z) (k : Z) (l : list B) :
  k ∉ key <$> l → filter (λ b, k = key b) l = [].
Proof.
  intros Hk. destruct (filter _ l) as [|b l'] eqn:E; [done|].
  assert (b ∈ filter (λ b, k = key b) l) as Hb by (rewrite E; left).
  apply list_elem_of_filter in Hb as [-> Hb].
  destruct Hk. by apply list_elem_of_fmap_2.
Qed.

Lemma filter_key_singleton {B} (key : B → Z) (k : Z) (l : list B) :
  NoDup (key <$> l) → k ∈ key <$> l → ∃ b, filter (λ b, k = key b) l = [b].
Proof.
  induction l as [|x l IH]; [by intros _ ?%not_elem_of_nil|].
  rewrite fmap_cons, NoDup_cons. intros [Hx Hnd] Hk.
  destruct (decide (k = key x)) as [->|Hne].
  - exists x. rewrite filter_cons_True by done. by rewrite filter_key_nil.
  - rewrite filter_cons_False by done. apply IH; [done|].
    by apply elem_of_cons in Hk as [?|?].
Qed.

Lemma join_rows {A B} (fk : A → Z) (key : B → Z) (right : list B) (rows : list A) :
  NoDup (key <$> right) →
  (a ← rows; (λ _, a) <$> filter (λ b, fk a = key b) right) =
  filter (λ a, fk a ∈ key <$> right) rows.
Proof.
  intros Hnd. induction rows as [|a rows IH]; [done|].
  rewrite bind_cons, IH. destruct (decide (fk a ∈ key <$> right)) as [Hin|Hout].
  - rewrite filter_cons_True by done.
    by destruct (filter_key_singleton key (fk a) right Hnd Hin) as [b ->].
  - rewrite filter_cons_False by done. by rewrite filter_key_nil.
Qed.

Lemma get_loan_details_run d skip limit fs :
  in_range skip → in_range limit →
  NoDup (Book.id <$> books d) → NoDup (Reader.id <$> readers d) →
  run (get_loan_details skip limit) fs d =
  (d, if lost fs then Raise OperationalError
      else not_found_or "No loans found"
             (take (Z.to_nat limit) (drop (Z.to_nat skip)
                (filter (with_both d) (loans d))))).
Proof.
  intros Hskip Hlimit Hbooks Hreaders.
  unfold run, get_loan_details. rewrite bind_run, q_all_eq.
  destruct (lost fs); [done|].
  cbn [q_limit_by q_offset_by q_join q_offset q_limit q_rows query_Loan].
  rewrite page_nonneg by done.
  rewrite (join_rows Loan.book_id Book.id (books d) (loans d) Hbooks).
  rewrite (join_rows Loan.reader_id Reader.id (readers d) _ Hreaders).
  rewrite list_filter_filter.
  rewrite (list_filter_iff _ (with_both d)) by (intros l; unfold with_both; tauto).
  by destruct (take _ _).
Qed.

(** With distinct keys in [books] and in [readers] and [skip] and
    [limit] in the range the server accepts, from 0 to below 2^63,
    [GET /loans/details/] returns the page of the loans that have both
    their book and their reader, each once and in the order of the
    [loans] table, and answers 404 when that page is empty. *)
Theorem get_loan_details_inner_join d skip limit :
  in_range skip → in_range limit →
  NoDup (Book.id <$> books d) → NoDup (Reader.id <$> readers d) →
  run (get_loan_details skip limit) [] d =
  (d, not_found_or "No loans found"
        (take (Z.to_nat limit) (drop (Z.to_nat skip)
           (filter (with_both d) (loans d))))).
Proof.
  intros Hskip Hlimit Hbooks Hreaders.
  by rewrite get_loan_details_run.
Qed.

Lemma get_loan_details_inner_join_witness :
  run (get_loan_details 0 10) [] db_orphan =
  (db_orphan, Return [Loan.mk 1 1 1; Loan.mk 3 1 1]).
Proof.
  apply (get_loan_details_inner_join db_orphan 0 10).
  - apply (bool_decide_eq_true_1 (in_range _)). vm_compute. reflexivity.
  - apply (bool_decide_eq_true_1 (in_range _)). vm_compute. reflexivity.
  - apply (bool_decide_eq_true_1 (NoDup _)). vm_compute. reflexivity.
  - apply (bool_decide_eq_true_1 (NoDup _)). vm_compute. reflexivity.
Defined.

(** Whatever the tables hold and whatever page is asked, a list that
    [GET /loans/details/] returns is not empty, holds only rows of
    [loans] whose book and whose reader exist, and the database is as
    before. *)
Theorem get_loan_details_sound skip limit fs d d' ls :
  run (get_loan_details skip limit) fs d = (d', Return ls) →
  d' = d ∧ ls ≠ [] ∧ ∀ l, l ∈ ls → l ∈ loans d ∧ with_both d l.
Proof.
  intros Hrun. split; [|split].
  - revert Hrun. unfold run, get_loan_details. rewrite bind_run, q_all_eq.
    destruct (lost fs); [done|]. destruct (page _ _ _) as [[|l0 rows]|]; [done| |done].
    simpl. by intros [= <- _].
  - revert Hrun. unfold run, get_loan_details. rewrite bind_run, q_all_eq.
    destruct (lost fs); [done|]. destruct (page _ _ _) as [[|l0 rows]|]; [done| |done].
    simpl. by intros [= _ <-].
  - intros l Hl. split.
    + by eapply get_loan_details_elem_of.
    + by eapply get_loan_details_with_both.
Qed.

Lemma get_loan_details_sound_witness :
  db_orphan = db_orphan ∧ [Loan.mk 3 1 1] ≠ [] ∧
  ∀ l, l ∈ [Loan.mk 3 1 1] → l ∈ loans db_orphan ∧ with_both db_orphan l.
Proof.
  apply (get_loan_details_sound 1 5 [false] db_orphan).
  vm_compute. reflexivity.
Defined.

(** ** Pages *)

Lemma page_negative {A} (skip limit : Z) (rows : list A) :
  skip < 0 ∨ limit < 0 → page (Some skip) (Some limit) rows = Raise DataError.
Proof.
  intros Hneg. unfold page, negative.
  destruct Hneg; [by rewrite (bool_decide_eq_true_2 (skip < 0))|].
  rewrite (bool_decide_eq_true_2 (limit < 0)) by done. by rewrite orb_true_r.
Qed.

(** No listing handler checks [skip] or [limit]: a negative one reaches
    the database, which refuses the statement, and the exception leaves
    the handler unhandled, so the answer is 500 for all five of them. *)
Theorem negative_page_answers_500 (collate : relation string)
    `{!∀ x y, Decision (collate x y)} d skip limit :
  skip < 0 ∨ limit < 0 →
  (∀ order_by ascending,
     run (read_books collate skip limit order_by ascending) [] d
       = (d, Raise DataError)) ∧
  run (read_readers skip limit) [] d = (d, Raise DataError) ∧
  (∀ author topic,
     run (search_books author topic skip limit) [] d = (d, Raise DataError)) ∧
  run (get_loan_details skip limit) [] d = (d, Raise DataError) ∧
  run (count_books_by_topic skip limit) [] d = (d, Raise DataError) ∧
  status (Raise DataError : Outcome unit) = 500.
Proof.
  intros Hneg. repeat split.
  - intros order_by ascending. unfold run, read_books. rewrite q_all_eq.
    cbn [lost head default tail q_limit_by q_offset_by q_offset q_limit].
    by rewrite page_negative.
  - unfold run, read_readers. rewrite q_all_eq. simpl. by rewrite page_negative.
  - intros author topic. unfold run, search_books. rewrite bind_run, q_all_eq.
    cbn [lost head default tail q_limit_by q_offset_by q_offset q_limit].
    by rewrite page_negative.
  - unfold run, get_loan_details. rewrite bind_run, q_all_eq.
    cbn [lost head default tail q_limit_by q_offset_by q_offset q_limit].
    by rewrite page_negative.
  - unfold run, count_books_by_topic. rewrite bind_run, q_all_eq.
    cbn [lost head default tail q_limit_by q_offset_by q_offset q_limit].
    by rewrite page_negative.
Qed.

Lemma negative_page_answers_500_witness :
  run (read_readers (-1) 10) [] db_loans = (db_loans, Raise DataError) ∧
  run (search_books None None 0 (-5)) [] db_loans = (db_loans, Raise DataError).
Proof.
  split.
  - apply (negative_page_answers_500 String.le db_loans (-1) 10). lia.
  - apply (negative_page_answers_500 String.le db_loans 0 (-5)). lia.
Defined.

Lemma length_page {A} (skip limit : Z) (rows : list A) :
  length (take (Z.to_nat limit) (drop (Z.to_nat skip) rows)) =
  (Z.to_nat limit `min` (length rows - Z.to_nat skip))%nat.
Proof. by rewrite length_take, length_drop. Qed.

(** For [skip] and [limit] in the range the server accepts, from 0 to
    below 2^63, [GET /books/] and [GET /readers/] return a list while
    the connection holds, an empty one when the page is empty (they
    have no 404): [GET /readers/] returns the page of [readers] in table
    order, and [GET /books/], whatever [order_by] and [ascending],
    returns rows of [books], as many as the table has past [skip], and
    [limit] at most. *)
Theorem listings_answer_200 (collate : relation string)
    `{!∀ x y, Decision (collate x y)} d skip limit order_by ascending :
  in_range skip → in_range limit →
  (∃ rows,
     run (read_books collate skip limit order_by ascending) [] d = (d, Return rows) ∧
     length rows = (Z.to_nat limit `min` (length (books d) - Z.to_nat skip))%nat ∧
     ∀ b, b ∈ rows → b ∈ books d) ∧
  run (read_readers skip limit) [] d =
    (d, Return (take (Z.to_nat limit) (drop (Z.to_nat skip) (readers d)))).
Proof.
  intros Hskip Hlimit. split.
  - assert (∃ sorted, sorted ≡ₚ books d ∧
              run (read_books collate skip limit order_by ascending) [] d =
              (d, Return (take (Z.to_nat limit) (drop (Z.to_nat skip) sorted))))
      as (sorted & Hperm & ->).
    { unfold run, read_books. rewrite q_all_eq.
      cbn [lost head default tail q_limit_by q_offset_by q_offset q_limit q_rows].
      rewrite page_nonneg by done.
      case_bool_decide; [|by eexists].
      destruct (getattr_Book order_by) as [col|]; [|by eexists].
      destruct ascending; simpl;
        [exists (merge_sort (asc collate col) (books d))
        |exists (merge_sort (desc collate col) (books d))];
        (split; [apply merge_sort_Permutation|done]). }
    eexists. split; [done|]. split.
    + by rewrite length_page, (Permutation_length Hperm).
    + intros b Hb. rewrite <- Hperm.
      by eapply subseteq_drop, subseteq_take.
  - unfold run, read_readers. rewrite q_all_eq. simpl. by rewrite page_nonneg.
Qed.

Lemma listings_answer_200_witness :
  (∃ rows,
     run (read_books String.le 5 10 "title" true) [] db_topics = (db_topics, Return rows) ∧
     length rows = (Z.to_nat 10 `min` (length (books db_topics) - Z.to_nat 5))%nat ∧
     ∀ b, b ∈ rows → b ∈ books db_topics) ∧
  run (read_readers 5 10) [] db_topics =
    (db_topics, Return (take (Z.to_nat 10) (drop (Z.to_nat 5) (readers db_topics)))).
Proof.
  apply (listings_answer_200 String.le db_topics 5 10 "title" true).
  - apply (bool_decide_eq_true_1 (in_range _)). vm_compute. reflexivity.
  - apply (bool_decide_eq_true_1 (in_range _)). vm_compute. reflexivity.
Defined.

(** ** What the tables keep true *)

Lemma NoDup_fmap_filter {A B} (f : A → B) (P : A → Prop) `{∀ x, Decision (P x)}
    (l : list A) :
  NoDup (f <$> l) → NoDup (f <$> filter P l).
Proof.
  intros Hnd. eapply sublist_NoDup; [exact Hnd|].
  apply fmap_sublist, sublist_filter.
Qed.

Lemma Forall_fmap_filter {A B} (f : A → B) (Q : B → Prop) (P : A → Prop)
    `{∀ x, Decision (P x)} (l : list A) :
  Forall Q (f <$> l) → Forall Q (f <$> filter P l).
Proof.
  rewrite !Forall_forall. intros HQ y (x & -> & Hx)%list_elem_of_fmap.
  apply list_elem_of_filter in Hx as [_ Hx]. apply HQ. by apply list_elem_of_fmap_2.
Qed.

Lemma seq_ahead_fresh (keys : list Z) (next : Z) :
  Forall (λ k, k < next) keys → next ∉ keys.
Proof. rewrite Forall_forall. intros Hlt Hin. specialize (Hlt _ Hin). lia. Qed.

Lemma seq_ahead_snoc (keys : list Z) (next : Z) :
  Forall (λ k, k < next) keys → Forall (λ k, k < next + 1) (keys ++ [next]).
Proof.
  intros Hlt. apply Forall_app. split.
  - eapply Forall_impl; [exact Hlt|]. simpl. lia.
  - apply Forall_singleton. lia.
Qed.

Lemma seq_ahead_mono (keys : list Z) (next next' : Z) :
  next ≤ next' → Forall (λ k, k < next) keys → Forall (λ k, k < next') keys.
Proof. intros Hle Hlt. eapply Forall_impl; [exact Hlt|]. simpl. lia. Qed.

Lemma NoDup_snoc_fresh {A} (l : list A) (x : A) :
  NoDup l → x ∉ l → NoDup (l ++ [x]).
Proof.
  intros Hnd Hx. apply NoDup_app. split; [done|]. split; [|apply NoDup_singleton].
  intros y Hy ->%list_elem_of_singleton. done.
Qed.

Lemma consistent_with_inserted d book :
  consistent d → BookCreate.title book ∉ Book.title <$> books d →
  consistent (with_inserted d book).
Proof.
  intros [] Hnew. split; simpl; try done.
  - rewrite fmap_app. apply NoDup_snoc_fresh; [done|]. by apply seq_ahead_fresh.
  - rewrite fmap_app. by apply NoDup_snoc_fresh.
  - rewrite fmap_app. by apply seq_ahead_snoc.
Qed.

Lemma consistent_without_book d book_id :
  consistent d → consistent (without_book d book_id).
Proof.
  intros []. split; simpl; try done.
  - by apply NoDup_fmap_filter.
  - by apply NoDup_fmap_filter.
  - by apply Forall_fmap_filter.
Qed.

Lemma consistent_without_reader d reader_id :
  consistent d → consistent (without_reader d reader_id).
Proof.
  intros []. split; simpl; try done.
  - by apply NoDup_fmap_filter.
  - rewrite delete_loans_filter. by apply NoDup_fmap_filter.
  - by apply Forall_fmap_filter.
  - rewrite delete_loans_filter. by apply Forall_fmap_filter.
Qed.

Lemma fmap_key_kept {A B} (key : A → B) (g : A → A) (l : list A) :
  (∀ x, key (g x) = key x) → key <$> (g <$> l) = key <$> l.
Proof.
  intros Hkey. rewrite <- list_fmap_compose. apply list_fmap_ext.
  intros i x _. apply Hkey.
Qed.

Lemma consistent_with_publisher d book_id p :
  consistent d → consistent (with_publisher d book_id p).
Proof.
  intros []. split; simpl; try done.
  - by rewrite update_rows_Permutation, ids_rewritten.
  - rewrite update_rows_Permutation. unfold rewritten.
    rewrite fmap_key_kept; [done|]. by intros b; case_bool_decide.
  - by rewrite update_rows_Permutation, ids_rewritten.
Qed.

(** In a database whose keys and titles are distinct and whose
    sequences are ahead of every key, [POST /books/] with a title no row
    has and four strings the driver binds cannot be refused by the
    tables: while the connection holds it succeeds, the new row gets the
    key the sequence offered, and the database it leaves has the same
    properties, so the next request finds them again. *)
Theorem create_book_on_consistent d book :
  consistent d → bindable_book book →
  BookCreate.title book ∉ Book.title <$> books d →
  run (create_book book) [] d =
    (with_inserted d book, Return ("Book added successfully", inserted d book)) ∧
  Book.id (inserted d book) = books_id_seq d ∧
  books_id_seq (with_inserted d book) = books_id_seq d + 1 ∧
  consistent (with_inserted d book).
Proof.
  intros Hc _ Hnew. split; [|split; [done|split; [done|]]].
  - rewrite create_book_run. simpl.
    rewrite !bool_decide_eq_false_2; [done|..|done].
    apply seq_ahead_fresh. by destruct Hc.
  - by apply consistent_with_inserted.
Qed.

(** ** Equations of the session of the further handlers *)

Lemma tx_bind_run {A B} (m : Tx A) (f : A → Tx B) s :
  (m ≫= f) s =
  match m s with
  | (s', Return a) => f a s'
  | (s', Raise e) => (s', Raise e)
  end.
Proof. reflexivity. Qed.

Lemma reading_q_first_eq {A} (q : Query A) d p fs :
  q_offset q = None →
  reading (q_first q) (mkSession d p fs) =
  (mkSession d p (tail fs),
   if lost fs then Raise OperationalError else Return (head (q_rows q d))).
Proof. intros Hoff. unfold reading. simpl. by rewrite q_first_eq. Qed.

Lemma tx_commit_eq d p fs :
  tx_commit (mkSession d p fs) =
  if lost fs then (mkSession d p (tail fs), Raise OperationalError)
  else tx_flush_and_commit (mkSession d p (tail fs)).
Proof.
  unfold tx_commit. rewrite tx_bind_run. unfold reading. simpl.
  rewrite execute_eq. by destruct (lost fs).
Qed.

Lemma aborted_same d : aborted d d = d.
Proof. by destruct d. Qed.

Lemma head_filter_snoc_fresh {A} (key : A → Z) (l : list A) (x : A) :
  key x ∉ key <$> l →
  head (filter (λ y, key y = key x) (l ++ [x])) = Some x.
Proof.
  intros Hfresh. rewrite filter_app.
  assert (filter (λ y, key y = key x) l = []) as ->.
  { apply head_None. by apply head_filter_key_None. }
  simpl. by rewrite filter_cons_True.
Qed.

Lemma issue_book_run d loan fs :
  tx_run (issue_book loan) fs d =
  if lost fs then (d, Raise (HTTPException 500 (Str OperationalError)))
  else if bool_decide (LoanCreate.book_id loan ∈ Book.id <$> books d) then
    if lost (tail fs) then (d, Raise (HTTPException 500 (Str OperationalError)))
    else if bool_decide (LoanCreate.reader_id loan ∈ Reader.id <$> readers d) then
      if lost (tail (tail fs)) then
        (d, Raise (HTTPException 500 (Str OperationalError)))
      else if bool_decide (loans_id_seq d ∈ Loan.id <$> loans d) then
        (aborted d (with_issued d loan),
         Raise (HTTPException 500 (Str (IntegrityError "loans_pkey"))))
      else if lost (tail (tail (tail fs))) then
        (with_issued d loan, Raise (HTTPException 500 (Str OperationalError)))
      else (with_issued d loan, Return ("Book issued successfully", issued d loan))
    else
      (d, Raise (HTTPException 500 (Str (HTTPException 404 (Text "Reader not found")))))
  else
    (d, Raise (HTTPException 500 (Str (HTTPException 404 (Text "Book not available"))))).
Proof.
  unfold tx_run, issue_book, tx_try_except.
  rewrite tx_bind_run, reading_q_first_eq by done.
  destruct (lost fs); [done|]. simpl.
  case_bool_decide as Hbook; [|by rewrite head_filter_key_None].
  destruct (head_filter_key_Some _ _ _ Hbook) as (b & -> & Hbid & _).
  rewrite tx_bind_run, reading_q_first_eq by done.
  destruct (lost (tail fs)); [done|]. simpl.
  case_bool_decide as Hreader; [|by rewrite head_filter_key_None].
  destruct (head_filter_key_Some _ _ _ Hreader) as (r & -> & Hrid & _).
  rewrite tx_bind_run. simpl. rewrite tx_bind_run, tx_commit_eq.
  destruct (lost (tail (tail fs))); [done|].
  unfold tx_flush_and_commit. simpl. rewrite Hbid, Hrid.
  case_bool_decide as Hpk; [done|]. simpl.
  rewrite tx_bind_run. unfold refresh_Loan. unfold reading at 1. simpl.
  rewrite bind_run, q_first_eq by done.
  destruct (lost (tail (tail (tail fs)))); [done|]. simpl.
  pose proof (head_filter_snoc_fresh Loan.id (loans d) (issued d loan) Hpk) as Hhd.
  unfold issued in Hhd. simpl in Hhd. by rewrite Hhd.
Qed.

Lemma create_reader_run d reader fs :
  tx_run (create_reader reader) fs d =
  if lost fs then (d, Raise (HTTPException 500 (Str OperationalError)))
  else if bool_decide (readers_id_seq d ∈ Reader.id <$> readers d) then
    (aborted d (with_registered d reader),
     Raise (HTTPException 500 (Str (IntegrityError "readers_pkey"))))
  else if lost (tail fs) then
    (with_registered d reader, Raise (HTTPException 500 (Str OperationalError)))
  else
    (with_registered d reader,
     Return ("Reader added successfully", registered d reader)).
Proof.
  unfold tx_run, create_reader, tx_try_except.
  rewrite tx_bind_run. simpl. rewrite tx_bind_run, tx_commit_eq.
  destruct (lost fs); [done|].
  unfold tx_flush_and_commit. simpl.
  case_bool_decide as Hpk; [done|]. simpl.
  rewrite tx_bind_run. unfold refresh_Reader. unfold reading at 1. simpl.
  rewrite bind_run, q_first_eq by done.
  destruct (lost (tail fs)); [done|]. simpl.
  pose proof (head_filter_snoc_fresh Reader.id (readers d) (registered d reader) Hpk)
    as Hhd.
  unfold registered in Hhd. simpl in Hhd. by rewrite Hhd.
Qed.

Lemma update_book_run d book_id book fs b0 :
  head (filter (λ b, Book.id b = book_id) (books d)) = Some b0 →
  tx_run (update_book book_id book) fs d =
  if lost fs then (d, Raise (HTTPException 500 (Str OperationalError)))
  else if lost (tail fs) then (d, Raise (HTTPException 500 (Str OperationalError)))
  else if bool_decide (BookCreate.title book ∈
                       Book.title <$> filter (λ b, Book.id b ≠ book_id) (books d)) then
    (d, Raise (HTTPException 500 (Str (IntegrityError "books_title_key"))))
  else if lost (tail (tail fs)) then
    (with_fields d book_id book, Raise (HTTPException 500 (Str OperationalError)))
  else
    (with_fields d book_id book,
     match head (filter (λ b, Book.id b = book_id)
                   (books (with_fields d book_id book))) with
     | Some b => Return b
     | None => Raise (HTTPException 500 (Str InvalidRequestError))
     end).
Proof.
  intros Hhd. pose proof (head_filter_Some _ _ _ Hhd) as [Hid Hb0].
  assert (book_id ∈ Book.id <$> books d) as Hin.
  { rewrite <- Hid. by apply list_elem_of_fmap_2. }
  unfold tx_run, update_book, tx_try_except.
  rewrite tx_bind_run, reading_q_first_eq by done.
  destruct (lost fs); [done|]. simpl. rewrite Hhd.
  rewrite tx_bind_run. simpl. rewrite tx_bind_run, tx_commit_eq.
  destruct (lost (tail fs)); [done|].
  unfold tx_flush_and_commit. simpl. rewrite Hid.
  case_bool_decide as Htaken.
  - destruct Htaken as [_ Htaken].
    rewrite bool_decide_eq_true_2 by done. simpl. by rewrite aborted_same.
  - rewrite bool_decide_eq_false_2 by tauto. simpl.
    unfold reading, refresh_Book. simpl.
    rewrite bind_run, q_first_eq by done.
    destruct (lost (tail (tail fs))); [done|]. unfold with_fields. simpl.
    destruct (head (filter _ (update_rows _ _ _))); reflexivity.
Qed.

Lemma update_book_absent_run d book_id book fs :
  book_id ∉ Book.id <$> books d →
  tx_run (update_book book_id book) fs d =
  if lost fs then (d, Raise (HTTPException 500 (Str OperationalError)))
  else (d, Raise (HTTPException 500 (Str (HTTPException 404 (Text "Book not found"))))).
Proof.
  intros Hout. unfold tx_run, update_book, tx_try_except.
  rewrite tx_bind_run, reading_q_first_eq by done.
  destruct (lost fs); [done|]. simpl. by rewrite head_filter_key_None.
Qed.

(** ** Issuing a book *)

(** [POST /loans/] for a book or a reader that is not there raises its
    404 inside the [try] block and answers 500, whatever the connection
    does; nothing is written. *)
Theorem issue_book_missing d loan fs :
  LoanCreate.book_id loan ∉ Book.id <$> books d ∨
  LoanCreate.reader_id loan ∉ Reader.id <$> readers d →
  (tx_run (issue_book loan) fs d).1 = d ∧
  status (tx_run (issue_book loan) fs d).2 = 500 ∧
  (fs = [] → ∃ detail,
     (tx_run (issue_book loan) fs d).2 =
     Raise (HTTPException 500 (Str (HTTPException 404 (Text detail))))).
Proof.
  intros Hmissing. rewrite issue_book_run.
  destruct (lost fs) eqn:Hlost; [split; [done|split; [done|by intros ->]]|].
  case_bool_decide as Hbook; [|by eauto].
  destruct Hmissing as [?|Hreader]; [done|].
  rewrite (bool_decide_eq_false_2 _ Hreader).
  destruct (lost (tail fs)) eqn:Hlost'; [|by eauto].
  split; [done|split; [done|by intros ->]].
Qed.

Lemma issue_book_missing_witness :
  (tx_run (issue_book (LoanCreate.mk 1 9)) [] db_loans).1 = db_loans ∧
  status (tx_run (issue_book (LoanCreate.mk 1 9)) [] db_loans).2 = 500 ∧
  (([] : list bool) = [] → ∃ detail,
     (tx_run (issue_book (LoanCreate.mk 1 9)) [] db_loans).2 =
     Raise (HTTPException 500 (Str (HTTPException 404 (Text detail))))).
Proof.
  apply (issue_book_missing db_loans (LoanCreate.mk 1 9) []).
  left. apply (bool_decide_eq_true_1 (_ ∉ _)). vm_compute. reflexivity.
Defined.

Lemma consistent_with_issued d loan :
  consistent d → consistent (with_issued d loan).
Proof.
  intros []. split; simpl; try done.
  - rewrite fmap_app. apply NoDup_snoc_fresh; [done|]. by apply seq_ahead_fresh.
  - rewrite fmap_app. by apply seq_ahead_snoc.
Qed.

Lemma length_filter_le {A} (P : A → Prop) `{∀ x, Decision (P x)} (l : list A) :
  (length (filter P l) ≤ length l)%nat.
Proof. apply sublist_length, sublist_filter. Qed.

(** In a database with distinct keys and sequences ahead of them, [POST
    /loans/] for a book and a reader that are there succeeds while the
    connection holds: one loan naming both is appended, [books] and
    [readers] are untouched, and [GET /loans/details/] from the start
    with a limit above the number of loans and below 2^63, the range
    the server accepts, shows the new loan. *)
Theorem issue_book_then_loan_details d loan :
  consistent d →
  LoanCreate.book_id loan ∈ Book.id <$> books d →
  LoanCreate.reader_id loan ∈ Reader.id <$> readers d →
  let d' := with_issued d loan in
  tx_run (issue_book loan) [] d =
    (d', Return ("Book issued successfully", issued d loan)) ∧
  Loan.book_id (issued d loan) = LoanCreate.book_id loan ∧
  Loan.reader_id (issued d loan) = LoanCreate.reader_id loan ∧
  books d' = books d ∧ readers d' = readers d ∧
  loans d' = loans d ++ [issued d loan] ∧
  (∀ limit, Z.of_nat (length (loans d)) < limit → in_range limit →
     ∃ ls, run (get_loan_details 0 limit) [] d' = (d', Return ls) ∧
           issued d loan ∈ ls) ∧
  consistent d'.
Proof.
  intros Hc Hbook Hreader d'.
  split.
  { rewrite issue_book_run. simpl.
    rewrite !bool_decide_eq_true_2 by done.
    rewrite bool_decide_eq_false_2; [done|].
    apply seq_ahead_fresh. by destruct Hc. }
  do 5 (split; [done|]). split; [|by apply consistent_with_issued].
  intros limit Hlimit Hrange.
  rewrite get_loan_details_run;
    [|by apply (bool_decide_eq_true_1 (in_range 0))|done|by destruct Hc..].
  cbn [lost head default].
  assert (issued d loan ∈ filter (with_both d') (loans d')) as Hin.
  { apply list_elem_of_filter. split; [done|].
    simpl. apply elem_of_app. right. left. }
  rewrite drop_0, take_ge.
  2:{ etrans; [apply length_filter_le|]. simpl. rewrite length_app. simpl. lia. }
  destruct (filter (with_both d') (loans d')) as [|l ls] eqn:E.
  { by apply not_elem_of_nil in Hin. }
  eexists. split; [done|]. done.
Qed.

Lemma consistent_db_loans : consistent db_loans.
Proof.
  split.
  - apply (bool_decide_eq_true_1 (NoDup _)). vm_compute. reflexivity.
  - apply (bool_decide_eq_true_1 (NoDup _)). vm_compute. reflexivity.
  - apply (bool_decide_eq_true_1 (NoDup _)). vm_compute. reflexivity.
  - apply (bool_decide_eq_true_1 (NoDup _)). vm_compute. reflexivity.
  - apply (bool_decide_eq_true_1 (Forall _ _)). vm_compute. reflexivity.
  - apply (bool_decide_eq_true_1 (Forall _ _)). vm_compute. reflexivity.
  - apply (bool_decide_eq_true_1 (Forall _ _)). vm_compute. reflexivity.
Defined.

Lemma issue_book_then_loan_details_witness :
  tx_run (issue_book (LoanCreate.mk 2 1)) [] db_loans =
    (with_issued db_loans (LoanCreate.mk 2 1),
     Return ("Book issued successfully", Loan.mk 4 1 2)) ∧
  ∃ ls, run (get_loan_details 0 10) [] (with_issued db_loans (LoanCreate.mk 2 1)) =
          (with_issued db_loans (LoanCreate.mk 2 1), Return ls) ∧
        Loan.mk 4 1 2 ∈ ls.
Proof.
  assert (LoanCreate.book_id (LoanCreate.mk 2 1) ∈ Book.id <$> books db_loans) as Hb.
  { apply (bool_decide_eq_true_1 (_ ∈ _)). vm_compute. reflexivity. }
  assert (LoanCreate.reader_id (LoanCreate.mk 2 1) ∈ Reader.id <$> readers db_loans)
    as Hr.
  { apply (bool_decide_eq_true_1 (_ ∈ _)). vm_compute. reflexivity. }
  destruct (issue_book_then_loan_details db_loans (LoanCreate.mk 2 1)
              consistent_db_loans Hb Hr) as (Hrun & _ & _ & _ & _ & _ & Hshow & _).
  split; [exact Hrun|]. apply (Hshow 10).
  - vm_compute. reflexivity.
  - apply (bool_decide_eq_true_1 (in_range _)). vm_compute. reflexivity.
Defined.

(** ** Registering a reader *)

Lemma lost_second fs : lost (tail fs) = true → fs !! 1%nat = Some true.
Proof. destruct fs as [|? [|[] ?]]; done. Qed.

(** [POST /readers/] with a name, an address and a phone the driver
    binds succeeds when the connection holds and the sequence offers a
    key no reader has: the reader is appended with the submitted name,
    address and phone and no email, [books] and [loans] are untouched,
    and [GET /readers/] from the start with a limit above the number of
    readers and below 2^63, the range the server accepts, lists the old
    rows and then the new one.  When the request fails and the failure
    is not a connection lost at the refresh (its second round trip),
    [readers] is as before. *)
Theorem create_reader_then_read_readers d reader :
  readers_id_seq d ∉ Reader.id <$> readers d →
  bindable_reader reader →
  let d' := with_registered d reader in
  tx_run (create_reader reader) [] d =
    (d', Return ("Reader added successfully", registered d reader)) ∧
  books d' = books d ∧ loans d' = loans d ∧
  (∀ limit, Z.of_nat (length (readers d)) < limit → in_range limit →
     run (read_readers 0 limit) [] d' =
       (d', Return (readers d ++ [registered d reader]))) ∧
  (∀ fs d'' e,
     tx_run (create_reader reader) fs d = (d'', Raise e) →
     fs !! 1%nat ≠ Some true → readers d'' = readers d).
Proof.
  intros Hfresh _ d'. split.
  { rewrite create_reader_run. simpl. by rewrite bool_decide_eq_false_2. }
  split; [done|]. split; [done|]. split.
  - intros limit Hlimit Hrange. unfold run, read_readers. rewrite q_all_eq. simpl.
    rewrite page_nonneg; [|by apply (bool_decide_eq_true_1 (in_range 0))|done].
    rewrite drop_0, take_ge; [done|].
    rewrite length_app. simpl. lia.
  - intros fs d'' e Hrun Hsecond. rewrite create_reader_run in Hrun.
    destruct (lost (tail fs)) eqn:Hlost.
    { by apply lost_second in Hlost. }
    repeat case_match; by simplify_eq.
Qed.

Lemma create_reader_then_read_readers_witness :
  tx_run (create_reader (ReaderCreate.mk "R3" "Street 3" "333")) [] db_loans =
    (with_registered db_loans (ReaderCreate.mk "R3" "Street 3" "333"),
     Return ("Reader added successfully", Reader.mk 3 "R3" "Street 3" "333" None)) ∧
  run (read_readers 0 10) [] (with_registered db_loans (ReaderCreate.mk "R3" "Street 3" "333"))
  = (with_registered db_loans (ReaderCreate.mk "R3" "Street 3" "333"),
     Return (readers db_loans ++ [Reader.mk 3 "R3" "Street 3" "333" None])).
Proof.
  assert (readers_id_seq db_loans ∉ Reader.id <$> readers db_loans) as Hfresh.
  { apply (bool_decide_eq_true_1 (_ ∉ _)). vm_compute. reflexivity. }
  assert (bindable_reader (ReaderCreate.mk "R3" "Street 3" "333")) as Hbind.
  { repeat split; vm_compute; reflexivity. }
  destruct (create_reader_then_read_readers db_loans
              (ReaderCreate.mk "R3" "Street 3" "333") Hfresh Hbind)
    as (Hrun & _ & _ & Hlist & _).
  split; [exact Hrun|]. apply (Hlist 10).
  - vm_compute. reflexivity.
  - apply (bool_decide_eq_true_1 (in_range _)). vm_compute. reflexivity.
Defined.

(** ** Replacing the fields of a book *)

Lemma of_row_set_fields book b :
  BookCreate.of_row
    (set_fields (BookCreate.title book) (BookCreate.author book)
                (BookCreate.publisher book) (BookCreate.topic book) b) = book.
Proof. by destruct book. Qed.

(** With distinct keys in [books], when [GET /books/{book_id}] finds a
    row, no row with another id has the submitted title and the four
    submitted strings are ones the driver binds, [PUT /books/{book_id}]
    succeeds while the connection holds and returns the row with the
    four submitted fields, its id and its year of publication as they
    were; the [GET] repeated afterwards returns the same.  The table
    then holds the rows it held, the one with that id rewritten, in an
    order the statement leaves open; the rows with another id are the
    same, and [readers] and [loans] are untouched. *)
Theorem update_book_then_read_book d book_id book b0 :
  NoDup (Book.id <$> books d) →
  bindable_book book →
  run (read_book book_id) [] d = (d, Return b0) →
  BookCreate.title book ∉
    Book.title <$> filter (λ b, Book.id b ≠ book_id) (books d) →
  let g := set_fields (BookCreate.title book) (BookCreate.author book)
                      (BookCreate.publisher book) (BookCreate.topic book) in
  ∃ d',
    tx_run (update_book book_id book) [] d = (d', Return (g b0)) ∧
    BookCreate.of_row (g b0) = book ∧
    Book.id (g b0) = book_id ∧
    Book.year_published (g b0) = Book.year_published b0 ∧
    run (read_book book_id) [] d' = (d', Return (g b0)) ∧
    books d' ≡ₚ rewritten book_id g (books d) ∧
    (∀ b, Book.id b ≠ book_id → b ∈ books d' ↔ b ∈ books d) ∧
    readers d' = readers d ∧ loans d' = loans d.
Proof.
  intros Hnd _ Hread Hfree g. rewrite read_book_run in Hread. simpl in Hread.
  destruct (head _) as [b|] eqn:Hhd; simplify_eq.
  pose proof (head_filter_Some _ _ _ Hhd) as [Hid Hb].
  assert (head (filter (λ b, Book.id b = book_id)
                  (books (with_fields d book_id book))) = Some (g b0)) as Hnew.
  { by apply head_filter_update_rows. }
  exists (with_fields d book_id book). split.
  { rewrite (update_book_run _ _ _ _ _ Hhd). simpl.
    rewrite bool_decide_eq_false_2 by done.
    simpl in Hnew. by rewrite Hnew. }
  split; [apply of_row_set_fields|]. split; [done|]. split; [done|]. split.
  { rewrite read_book_run. simpl. simpl in Hnew. by rewrite Hnew. }
  split; [apply update_rows_Permutation|].
  split; [|done].
  intros b Hne. simpl. rewrite update_rows_Permutation.
  by apply elem_of_other_rewritten.
Qed.

Lemma update_book_then_read_book_witness :
  ∃ d',
    tx_run (update_book 2 (BookCreate.mk "T9" "A9" "P9" "Z")) [] db_topics =
      (d', Return (Book.mk 2 "T9" "A9" "P9" "Z" None)) ∧
    run (read_book 2) [] d' = (d', Return (Book.mk 2 "T9" "A9" "P9" "Z" None)).
Proof.
  assert (NoDup (Book.id <$> books db_topics)) as Hnd.
  { apply (bool_decide_eq_true_1 (NoDup _)). vm_compute. reflexivity. }
  assert (bindable_book (BookCreate.mk "T9" "A9" "P9" "Z")) as Hbind.
  { repeat split; vm_compute; reflexivity. }
  assert (BookCreate.title (BookCreate.mk "T9" "A9" "P9" "Z") ∉
            Book.title <$> filter (λ b, Book.id b ≠ 2) (books db_topics)) as Hfree.
  { apply (bool_decide_eq_true_1 (_ ∉ _)). vm_compute. reflexivity. }
  destruct (update_book_then_read_book db_topics 2 (BookCreate.mk "T9" "A9" "P9" "Z")
              (Book.mk 2 "T2" "A2" "P2" "Y" None) Hnd Hbind eq_refl Hfree)
    as (d' & Hput & _ & _ & _ & Hget & _).
  exists d'. split; [exact Hput|exact Hget].
Defined.



(** ** Every writing handler keeps the tables consistent *)

Lemma consistent_aborted d d2 :
  consistent d →
  books_id_seq d ≤ books_id_seq d2 →
  readers_id_seq d ≤ readers_id_seq d2 →
  loans_id_seq d ≤ loans_id_seq d2 →
  consistent (aborted d d2).
Proof.
  intros [] Hb Hr Hl. split; simpl; try done; by eapply seq_ahead_mono.
Qed.

Lemma consistent_with_registered d reader :
  consistent d → consistent (with_registered d reader).
Proof.
  intros []. split; simpl; try done.
  - rewrite fmap_app. apply NoDup_snoc_fresh; [done|]. by apply seq_ahead_fresh.
  - rewrite fmap_app. by apply seq_ahead_snoc.
Qed.

Lemma filter_all_elem_of {A} (P : A → Prop) `{∀ x, Decision (P x)} (l : list A) :
  (∀ x, x ∈ l → P x) → filter P l = l.
Proof.
  intros HP. rewrite (filter_ext_elem_of P (λ _, True)) by (by split; auto).
  by apply filter_all.
Qed.

Lemma NoDup_titles_set_fields (bs : list Book.t) (k : Z) (t a p tp : string) :
  NoDup (Book.id <$> bs) → NoDup (Book.title <$> bs) →
  t ∉ Book.title <$> filter (λ b, Book.id b ≠ k) bs →
  NoDup (Book.title <$>
           ((λ b, if bool_decide (Book.id b = k) then set_fields t a p tp b else b)
              <$> bs)).
Proof.
  induction bs as [|x bs IH]; [constructor|].
  rewrite !fmap_cons, !NoDup_cons. intros [Hidx Hids] [Htx Hts] Hfree.
  case_bool_decide as Hk.
  - rewrite filter_cons_False in Hfree by tauto.
    assert (filter (λ b, Book.id b ≠ k) bs = bs) as Hall.
    { apply filter_all_elem_of. intros b Hb Heq.
      apply Hidx. rewrite Hk, <- Heq. by apply list_elem_of_fmap_2. }
    rewrite Hall in Hfree.
    assert (((λ b, if bool_decide (Book.id b = k) then set_fields t a p tp b else b)
               <$> bs) = bs) as ->.
    { rewrite <- (list_fmap_id bs) at 2. apply list_fmap_ext. intros i b Hb.
      rewrite bool_decide_eq_false_2; [done|]. intros Heq.
      apply Hidx. rewrite Hk, <- Heq.
      apply list_elem_of_fmap_2. by eapply list_elem_of_lookup_2. }
    split; [done|done].
  - rewrite filter_cons_True in Hfree by done.
    rewrite fmap_cons in Hfree. apply not_elem_of_cons in Hfree as [Hne Hfree].
    split; [|by apply IH].
    intros (y & Hty & Hy)%list_elem_of_fmap.
    apply list_elem_of_fmap in Hy as (b & -> & Hb).
    case_bool_decide; simpl in Hty.
    + done.
    + apply Htx. rewrite Hty. by apply list_elem_of_fmap_2.
Qed.

Lemma consistent_with_fields d book_id book :
  consistent d →
  BookCreate.title book ∉
    Book.title <$> filter (λ b, Book.id b ≠ book_id) (books d) →
  consistent (with_fields d book_id book).
Proof.
  intros [] Hfree. split; simpl; try done.
  - by rewrite update_rows_Permutation, ids_rewritten.
  - rewrite update_rows_Permutation. by apply NoDup_titles_set_fields.
  - by rewrite update_rows_Permutation, ids_rewritten.
Qed.

(** Distinct keys in the three tables, distinct titles in [books], and
    sequences ahead of every key: whatever the request and whatever the
    connection does, each of the seven handlers that write leaves these
    true when it found them true, whether it succeeds or fails. *)
Theorem consistent_kept d fs :
  consistent d →
  (∀ book, consistent (run (create_book book) fs d).1) ∧
  (∀ book_id, consistent (run (delete_book book_id) fs d).1) ∧
  (∀ reader_id, consistent (run (delete_reader reader_id) fs d).1) ∧
  (∀ book_id p, consistent (run (update_books_publisher book_id p) fs d).1) ∧
  (∀ loan, consistent (tx_run (issue_book loan) fs d).1) ∧
  (∀ reader, consistent (tx_run (create_reader reader) fs d).1) ∧
  (∀ book_id book, consistent (tx_run (update_book book_id book) fs d).1).
Proof.
  intros Hc. split; [|split; [|split; [|split; [|split; [|split]]]]].
  - intros book. rewrite create_book_run.
    repeat case_match; simpl; try done.
    + apply consistent_aborted; simpl; [done|lia..].
    + apply consistent_with_inserted; [done|]. by eapply bool_decide_eq_false_1.
    + apply consistent_with_inserted; [done|]. by eapply bool_decide_eq_false_1.
  - intros k. rewrite delete_book_run.
    repeat case_match; simpl; try done. by apply consistent_without_book.
  - intros r. rewrite delete_reader_run.
    repeat case_match; simpl; try done. by apply consistent_without_reader.
  - intros k p. rewrite update_books_publisher_run.
    repeat case_match; simpl; try done. by apply consistent_with_publisher.
  - intros loan. rewrite issue_book_run.
    repeat case_match; simpl; try done;
      try (by apply consistent_with_issued).
    apply consistent_aborted; simpl; [done|lia..].
  - intros reader. rewrite create_reader_run.
    repeat case_match; simpl; try done;
      try (by apply consistent_with_registered).
    apply consistent_aborted; simpl; [done|lia..].
  - intros k book.
    destruct (decide (k ∈ Book.id <$> books d)) as [Hin|Hout].
    + destruct (head_filter_key_Some _ _ _ Hin) as (b0 & Hhd & _).
      rewrite (update_book_run _ _ _ _ _ Hhd).
      repeat case_match; simpl; try done;
        (apply consistent_with_fields; [done|]; by eapply bool_decide_eq_false_1).
    + rewrite update_book_absent_run by done. by destruct (lost fs).
Qed.

Lemma consistent_kept_witness :
  consistent (run (create_book (BookCreate.mk "T2" "A2" "P2" "Y")) [] db_loans).1 ∧
  consistent (tx_run (update_book 1 (BookCreate.mk "T2" "A2" "P2" "Y"))
                     [false; false; true] db_loans).1.
Proof.
  destruct (consistent_kept db_loans [] consistent_db_loans) as (Hcreate & _).
  destruct (consistent_kept db_loans [false; false; true] consistent_db_loans)
    as (_ & _ & _ & _ & _ & _ & Hupdate).
  split; [apply Hcreate|apply Hupdate].
Defined.

(** ** The status codes of the handlers with a [try] block *)

Lemma try_except_status {A} (body : M A) w :
  let o := (try_except body (λ e, rollback;; raise (HTTPException 500 (Str e))) w).2 in
  status o = 200 ∨ status o = 500.
Proof.
  unfold try_except. destruct (body w) as [w' [a|e]]; [by left|by right].
Qed.

Lemma tx_try_except_status {A} (body : Tx A) s :
  let o := (tx_try_except body
              (λ e, tx_rollback;; tx_raise (HTTPException 500 (Str e))) s).2 in
  status o = 200 ∨ status o = 500.
Proof.
  unfold tx_try_except. destruct (body s) as [s' [a|e]]; [by left|by right].
Qed.

Lemma run_snd {A} (h : M A) fs d : (run h fs d).2 = (h (mkWorld d [] fs)).2.
Proof. unfold run. by destruct (h _). Qed.

Lemma tx_run_snd {A} (h : Tx A) fs d :
  (tx_run h fs d).2 = (h (mkSession d [] fs)).2.
Proof. unfold tx_run. by destruct (h _). Qed.

(** The seven handlers whose body stands in [try: ... except Exception]
    answer 200 or 500 and nothing else, whatever the request, the
    database and the connection: the 400 and the 404s they raise never
    reach the client as such. *)
Theorem guarded_handlers_answer_200_or_500 d fs :
  (∀ book, status (run (create_book book) fs d).2 = 200 ∨
           status (run (create_book book) fs d).2 = 500) ∧
  (∀ book_id, status (run (delete_book book_id) fs d).2 = 200 ∨
              status (run (delete_book book_id) fs d).2 = 500) ∧
  (∀ reader_id, status (run (delete_reader reader_id) fs d).2 = 200 ∨
                status (run (delete_reader reader_id) fs d).2 = 500) ∧
  (∀ book_id p, status (run (update_books_publisher book_id p) fs d).2 = 200 ∨
                status (run (update_books_publisher book_id p) fs d).2 = 500) ∧
  (∀ loan, status (tx_run (issue_book loan) fs d).2 = 200 ∨
           status (tx_run (issue_book loan) fs d).2 = 500) ∧
  (∀ reader, status (tx_run (create_reader reader) fs d).2 = 200 ∨
             status (tx_run (create_reader reader) fs d).2 = 500) ∧
  (∀ book_id book, status (tx_run (update_book book_id book) fs d).2 = 200 ∨
                   status (tx_run (update_book book_id book) fs d).2 = 500).
Proof.
  repeat split; intros; rewrite ?run_snd, ?tx_run_snd;
    first [apply try_except_status | apply tx_try_except_status].
Qed.

(** ** The migrations *)

Lemma column_keys_snoc cs table c :
  column_keys (cs ++ [(table, c)]) = column_keys cs ++ [(table, col_name c)].
Proof. unfold column_keys. by rewrite fmap_app. Qed.

Lemma drop_absent_column (cs : list (string * Column)) table name :
  (table, name) ∉ column_keys cs →
  filter (λ tc, ¬ (tc.1 = table ∧ col_name tc.2 = name)) cs = cs.
Proof.
  intros Habsent. apply filter_all_elem_of.
  intros [t c] Hin [Ht Hn]. simpl in *. apply Habsent.
  unfold column_keys. apply list_elem_of_fmap. exists (t, c). simpl.
  split; [by rewrite Ht, Hn|done].
Qed.

Lemma add_column_Some table c s s' :
  op.add_column table c s = Some s' →
  table ∈ tables s ∧ ((table, col_name c) ∉ column_keys (columns s)) ∧
  s' = mkSchema (tables s) (columns s ++ [(table, c)]) (indexes s).
Proof.
  unfold op.add_column. case_bool_decide as H; [|done].
  intros [= <-]. unfold has_column in H. tauto.
Qed.

Lemma drop_column_eq table name ts cs ixs :
  (table, name) ∈ column_keys cs →
  op.drop_column table name (mkSchema ts cs ixs) =
  Some (mkSchema ts
          (filter (λ tc, ¬ (tc.1 = table ∧ col_name tc.2 = name)) cs)
          (filter (λ i, ¬ (ix_table i = table ∧ name ∈ ix_columns i)) ixs)).
Proof.
  intros Hin. unfold op.drop_column. by rewrite bool_decide_eq_true_2.
Qed.

Lemma no_index_over_absent_column s table name :
  indexes_over_columns s →
  (table, name) ∉ column_keys (columns s) →
  filter (λ i, ¬ (ix_table i = table ∧ name ∈ ix_columns i)) (indexes s) = indexes s.
Proof.
  intros Hix Habsent. apply filter_all_elem_of.
  intros i Hi [Ht Hc]. apply Habsent. rewrite <- Ht. by apply Hix.
Qed.

(** Revision 001: when [upgrade] goes through on a schema whose indexes
    are over existing columns, it has added the column [year_published]
    to [books] and [email] to [readers] and nothing else, and
    [downgrade], which drops the same two columns, goes through on the
    upgraded schema and gives back the schema from before the upgrade. *)
Theorem rev_001_downgrade_undoes_upgrade s s' :
  indexes_over_columns s →
  rev_001_add_columns.upgrade s = Some s' →
  has_column s' "books" "year_published" ∧ has_column s' "readers" "email" ∧
  tables s' = tables s ∧ indexes s' = indexes s ∧
  rev_001_add_columns.downgrade s' = Some s.
Proof.
  intros Hix. unfold rev_001_add_columns.upgrade, rev_001_add_columns.downgrade.
  destruct (op.add_column "books" _ s) as [s1|] eqn:H1; [|done]. simpl.
  intros H2.
  apply add_column_Some in H1 as (Ht1 & Hnew1 & ->).
  apply add_column_Some in H2 as (Ht2 & Hnew2 & ->).
  cbn [tables columns indexes] in *.
  rewrite column_keys_snoc in Hnew2.
  apply not_elem_of_app in Hnew2 as [Hnew2 _].
  unfold has_column. cbn [tables columns indexes].
  rewrite !column_keys_snoc.
  split; [|split; [|split; [done|split; [done|]]]].
  - apply elem_of_app. left. apply elem_of_app. right. left.
  - apply elem_of_app. right. left.
  - rewrite drop_column_eq.
    2:{ rewrite !column_keys_snoc. apply elem_of_app. left.
        apply elem_of_app. right. left. }
    rewrite !filter_app, drop_absent_column by done.
    rewrite (filter_cons_False _ ("books", _)) by (simpl; tauto).
    rewrite (filter_cons_True _ ("readers", _)) by (simpl; intros [? _]; done).
    rewrite no_index_over_absent_column by done.
    simpl. rewrite app_nil_r.
    rewrite drop_column_eq.
    2:{ rewrite column_keys_snoc. apply elem_of_app. right. left. }
    rewrite filter_app, drop_absent_column by done.
    rewrite filter_cons_False by (simpl; tauto).
    rewrite no_index_over_absent_column by done.
    simpl. rewrite app_nil_r. by destruct s.
Qed.

Lemma indexes_over_columns_schema_0 : indexes_over_columns schema_0.
Proof. intros i c Hi. by apply not_elem_of_nil in Hi. Defined.

Lemma rev_001_downgrade_undoes_upgrade_witness :
  ∃ s', rev_001_add_columns.upgrade schema_0 = Some s' ∧
        rev_001_add_columns.downgrade s' = Some schema_0.
Proof.
  eexists. split; [vm_compute; reflexivity|].
  eapply (rev_001_downgrade_undoes_upgrade schema_0).
  - exact indexes_over_columns_schema_0.
  - vm_compute. reflexivity.
Defined.

Lemma create_index_Some name table cols s s' :
  op.create_index name table cols s = Some s' →
  (name ∉ ix_name <$> indexes s) ∧ (name ∉ tables s) ∧
  Forall (has_column s table) cols ∧
  s' = mkSchema (tables s) (columns s) (indexes s ++ [mkIndex name table cols]).
Proof.
  unfold op.create_index. case_bool_decide as H; [|done].
  intros [= <-]. tauto.
Qed.

Lemma create_index_eq name table cols s :
  (name ∉ ix_name <$> indexes s) ∧ (name ∉ tables s) ∧
  Forall (has_column s table) cols →
  op.create_index name table cols s =
  Some (mkSchema (tables s) (columns s) (indexes s ++ [mkIndex name table cols])).
Proof. intros H. unfold op.create_index. by rewrite bool_decide_eq_true_2. Qed.

Lemma drop_index_eq name table ts cs ixs :
  name ∈ ix_name <$> ixs →
  op.drop_index name table (mkSchema ts cs ixs) =
  Some (mkSchema ts cs (filter (λ i, ix_name i ≠ name) ixs)).
Proof.
  intros Hin. unfold op.drop_index. by rewrite bool_decide_eq_true_2.
Qed.

Lemma drop_absent_index (ixs : list Index) name :
  name ∉ ix_name <$> ixs → filter (λ i, ix_name i ≠ name) ixs = ixs.
Proof.
  intros Habsent. apply filter_all_elem_of.
  intros i Hi Hn. apply Habsent. rewrite <- Hn. by apply list_elem_of_fmap_2.
Qed.

(** Revision 002: when [upgrade] goes through, it has added the index
    [ix_books_author] over [books.author] and [ix_readers_email] over
    [readers.email] and nothing else, and [downgrade], which drops the
    indexes of these two names, goes through on the upgraded schema and
    gives back the schema from before the upgrade. *)
Theorem rev_002_downgrade_undoes_upgrade s s' :
  rev_002_add_indexes.upgrade s = Some s' →
  indexes s' = indexes s ++ [mkIndex "ix_books_author" "books" ["author"];
                             mkIndex "ix_readers_email" "readers" ["email"]] ∧
  tables s' = tables s ∧ columns s' = columns s ∧
  rev_002_add_indexes.downgrade s' = Some s.
Proof.
  unfold rev_002_add_indexes.upgrade, rev_002_add_indexes.downgrade.
  destruct (op.create_index "ix_books_author" _ _ s) as [s1|] eqn:H1; [|done].
  simpl. intros H2.
  apply create_index_Some in H1 as (Hnew1 & _ & _ & ->).
  apply create_index_Some in H2 as (Hnew2 & _ & _ & ->).
  cbn [tables columns indexes] in *.
  rewrite fmap_app in Hnew2. apply not_elem_of_app in Hnew2 as [Hnew2 _].
  split; [by rewrite <- app_assoc|]. split; [done|]. split; [done|].
  rewrite drop_index_eq.
  2:{ rewrite !fmap_app. apply elem_of_app. left. apply elem_of_app. right. left. }
  rewrite !filter_app, drop_absent_index by done.
  rewrite (filter_cons_False _ (mkIndex "ix_books_author" _ _)) by (simpl; tauto).
  rewrite (filter_cons_True _ (mkIndex "ix_readers_email" _ _)) by done.
  simpl. rewrite app_nil_r.
  rewrite drop_index_eq.
  2:{ rewrite fmap_app. apply elem_of_app. right. left. }
  rewrite filter_app, drop_absent_index by done.
  rewrite filter_cons_False by (simpl; tauto).
  simpl. rewrite app_nil_r. by destruct s.
Qed.

Lemma rev_002_downgrade_undoes_upgrade_witness :
  ∃ s1 s2, rev_001_add_columns.upgrade schema_0 = Some s1 ∧
           rev_002_add_indexes.upgrade s1 = Some s2 ∧
           rev_002_add_indexes.downgrade s2 = Some s1.
Proof.
  eexists. eexists. split; [vm_compute; reflexivity|].
  split; [vm_compute; reflexivity|].
  eapply rev_002_downgrade_undoes_upgrade. vm_compute. reflexivity.
Defined.

(** Revision 002 names revision 001 as the one it follows, and it has
    to: its [upgrade] puts an index over [readers.email], the column
    the [upgrade] of 001 adds.  On a schema on which 001 can still be
    applied the [upgrade] of 002 is refused; after 001, it goes through
    when [books] has its [author] column and the two index names are
    free. *)
Theorem rev_002_follows_rev_001 s s1 :
  rev_001_add_columns.upgrade s = Some s1 →
  rev_002_add_indexes.upgrade s = None ∧
  (has_column s "books" "author" →
   ("ix_books_author" ∉ ix_name <$> indexes s) →
   ("ix_readers_email" ∉ ix_name <$> indexes s) →
   ("ix_books_author" ∉ tables s) → ("ix_readers_email" ∉ tables s) →
   ∃ s2, rev_002_add_indexes.upgrade s1 = Some s2).
Proof.
  unfold rev_001_add_columns.upgrade.
  destruct (op.add_column "books" _ s) as [s0|] eqn:H1; [|done]. simpl.
  intros H2.
  apply add_column_Some in H1 as (Ht1 & Hnew1 & ->).
  apply add_column_Some in H2 as (Ht2 & Hnew2 & ->).
  cbn [tables columns indexes] in *.
  rewrite column_keys_snoc in Hnew2.
  apply not_elem_of_app in Hnew2 as [Hnew2 _].
  split.
  - unfold rev_002_add_indexes.upgrade.
    destruct (op.create_index "ix_books_author" _ _ s) as [s2|] eqn:H3; [|done].
    simpl. apply create_index_Some in H3 as (_ & _ & _ & ->).
    unfold op.create_index. rewrite bool_decide_eq_false_2; [done|].
    intros (_ & _ & Hcols). rewrite Forall_singleton in Hcols. done.
  - intros Hauthor Hix1 Hix2 Hnt1 Hnt2.
    unfold rev_002_add_indexes.upgrade.
    rewrite create_index_eq.
    2:{ split; [done|]. split; [done|]. apply Forall_singleton.
        unfold has_column in *. cbn [columns]. rewrite !column_keys_snoc.
        apply elem_of_app. left. apply elem_of_app. by left. }
    simpl. rewrite create_index_eq; [by eexists|].
    cbn [tables columns indexes]. split; [|split; [done|]].
    + rewrite fmap_app. apply not_elem_of_app. split; [done|].
      simpl. by intros ?%list_elem_of_singleton.
    + apply Forall_singleton. unfold has_column. cbn [columns].
      rewrite !column_keys_snoc. apply elem_of_app. right. left.
Qed.

Lemma rev_002_follows_rev_001_witness :
  rev_002_add_indexes.upgrade schema_0 = None ∧
  ∃ s1 s2, rev_001_add_columns.upgrade schema_0 = Some s1 ∧
           rev_002_add_indexes.upgrade s1 = Some s2.
Proof.
  assert (∃ s1, rev_001_add_columns.upgrade schema_0 = Some s1) as [s1 H1].
  { eexists. vm_compute. reflexivity. }
  destruct (rev_002_follows_rev_001 schema_0 s1 H1) as [Hnone Hsome].
  split; [exact Hnone|]. exists s1.
  destruct Hsome as [s2 H2].
  - apply (bool_decide_eq_true_1 (has_column _ _ _)). vm_compute. reflexivity.
  - apply (bool_decide_eq_true_1 (_ ∉ _)). vm_compute. reflexivity.
  - apply (bool_decide_eq_true_1 (_ ∉ _)). vm_compute. reflexivity.
  - apply (bool_decide_eq_true_1 (_ ∉ _)). vm_compute. reflexivity.
  - apply (bool_decide_eq_true_1 (_ ∉ _)). vm_compute. reflexivity.
  - exists s2. split; [exact H1|exact H2].
Defined.

(** ** A connection lost at the refresh *)



Lemma create_book_on_consistent_witness :
  run (create_book (BookCreate.mk "T2" "A2" "P2" "Y")) [] db_loans =
    (with_inserted db_loans (BookCreate.mk "T2" "A2" "P2" "Y"),
     Return ("Book added successfully", Book.mk 2 "T2" "A2" "P2" "Y" None)) ∧
  consistent (with_inserted db_loans (BookCreate.mk "T2" "A2" "P2" "Y")).
Proof.
  assert (BookCreate.title (BookCreate.mk "T2" "A2" "P2" "Y")
            ∉ Book.title <$> books db_loans) as Hnew.
  { apply (bool_decide_eq_true_1 (_ ∉ _)). vm_compute. reflexivity. }
  assert (bindable_book (BookCreate.mk "T2" "A2" "P2" "Y")) as Hbind.
  { repeat split; vm_compute; reflexivity. }
  destruct (create_book_on_consistent db_loans (BookCreate.mk "T2" "A2" "P2" "Y")
              consistent_db_loans Hbind Hnew) as (Hrun & _ & _ & Hc).
  split; [exact Hrun|exact Hc].
Defined.
